(** * Ergogen command-line shell ([src/cli.js]): a shallow embedding

    The CLI is glue around collaborators that are not part of the file:
    the generation engine ([./ergogen]), the bundle splitter ([./io]),
    and the libraries [jszip], [js-yaml], [path] and [fs].
    They are collected in the interface [Host]; every theorem below holds
    for every implementation of that interface.  Everything written in
    [cli.js] itself is a definition here, in the order of the source.

    Effects are explicit: a computation is a function from a [world]
    (the input disk, the closure variable [config_text] of the top-level
    function, and the trace of observable events) to an [outcome]
    (returned value or thrown error) and the resulting world.  [await]
    is sequencing: Node runs one continuation at a time. *)

From Stdlib Require Import String Ascii List ZArith Bool Arith Lia.
From Stdlib Require Import DecimalString.
Import ListNotations.
Open Scope string_scope.
Open Scope list_scope.

Set Implicit Arguments.
Set Warnings "-register-all".

(* ------------------------------------------------------------------ *)
(** ** JavaScript strings *)

Module JsString.

Definition dquote : string := String (ascii_of_nat 34) EmptyString.

(** [s.endsWith(suffix)] *)
Definition endsWith (s suffix : string) : bool :=
  let n := String.length s in
  let m := String.length suffix in
  (m <=? n)%nat && String.eqb (substring (n - m) m s) suffix.

(** [s.replace(pattern, replacement)] with a string pattern: only the
    first occurrence is replaced. *)
Definition replace (s pattern replacement : string) : string :=
  match index 0 pattern s with
  | Some i =>
      substring 0 i s ++ replacement ++
      substring (i + String.length pattern)
                (String.length s - (i + String.length pattern)) s
  | None => s
  end.

(** [s.split(sep)] for a non-empty separator.  [skip] counts the
    characters of a separator match still to be dropped, [cur] is the
    piece being accumulated. *)
Fixpoint split_from (sep : string) (skip : nat) (cur s : string)
  : list string :=
  match s with
  | EmptyString => [cur]
  | String c s' =>
      match skip with
      | S k => split_from sep k cur s'
      | O =>
          if prefix sep s
          then cur :: split_from sep (String.length sep - 1) "" s'
          else split_from sep 0 (cur ++ String c "") s'
      end
  end.

Definition split (s sep : string) : list string := split_from sep 0 "" s.

(** Decimal rendering of an array index, as in the keys of
    [Object.entries("ab")]. *)
Definition of_index (n : nat) : string :=
  NilEmpty.string_of_uint (Nat.to_uint n).

End JsString.

(* ------------------------------------------------------------------ *)
(** ** JavaScript values *)

(** The values that flow through the writers: the engine's result tree
    and its payloads.  Numbers are the integers plus [NaN]; an object is
    its own enumerable string-keyed properties in enumeration order. *)
Inductive jsval : Type :=
| VUndefined
| VNull
| VBool (b : bool)
| VNum (n : Z)
| VNaN
| VStr (s : string)
| VObj (props : list (string * jsval)).

(** What JavaScript throws. [SystemError] is a failed [fs] call with its
    code ([ENOENT], [EISDIR], ...), [LibError] an error raised inside a
    collaborator. *)
Inductive exn : Type :=
| TypeError (msg : string)
| SystemError (code path : string)
| LibError (msg : string).

Inductive outcome (A : Type) : Type :=
| Ok (a : A)
| Throw (e : exn).
Arguments Ok {A} a.
Arguments Throw {A} e.

(** ToBoolean: the test of [if (!data)] and [if (data[format])]. *)
Definition truthy (v : jsval) : bool :=
  match v with
  | VUndefined | VNull | VNaN => false
  | VBool b => b
  | VNum n => negb (n =? 0)%Z
  | VStr s => negb (String.eqb s "")
  | VObj _ => true
  end.

Definition falsy (v : jsval) : bool := negb (truthy v).

Fixpoint assoc (k : string) (props : list (string * jsval)) : jsval :=
  match props with
  | [] => VUndefined
  | (k', v) :: rest => if String.eqb k k' then v else assoc k rest
  end.

(** [v.k] and [v[k]] for the property names the CLI reads (result-tree
    keys and format tags, none of which a primitive wrapper defines):
    reading a property of [undefined] or [null] throws. *)
Definition get_prop (v : jsval) (k : string) : outcome jsval :=
  match v with
  | VUndefined =>
      Throw (TypeError ("Cannot read properties of undefined (reading '"
                          ++ k ++ "')"))
  | VNull =>
      Throw (TypeError ("Cannot read properties of null (reading '"
                          ++ k ++ "')"))
  | VObj props => Ok (assoc k props)
  | _ => Ok VUndefined
  end.

Fixpoint string_entries (i : nat) (s : string) : list (string * jsval) :=
  match s with
  | EmptyString => []
  | String c s' =>
      (JsString.of_index i, VStr (String c "")) :: string_entries (S i) s'
  end.

(** [Object.entries(v)] *)
Definition object_entries (v : jsval) : outcome (list (string * jsval)) :=
  match v with
  | VUndefined | VNull =>
      Throw (TypeError "Cannot convert undefined or null to object")
  | VObj props => Ok props
  | VStr s => Ok (string_entries 0 s)
  | _ => Ok []
  end.

(* ------------------------------------------------------------------ *)
(** ** The input file system *)

(** What the resolver can observe of a path: a readable file, a listable
    directory, an entry that [stat] accepts but that cannot be read
    ([Denied], with the kind [stat] reports), or an entry on which
    [stat] itself fails ([Broken]). *)
Inductive fsnode : Type :=
| File (content : string)
| Dir (entries : list (string * fsnode))
| Denied (is_dir : bool) (e : exn)
| Broken (e : exn).

Definition disk_t := string -> option fsnode.

(** [fs.createReadStream(path)]: a lazy byte source, opened by whoever
    consumes the archive. *)
Inductive stream : Type :=
| ReadStream (path : string).

Definition injection : Type := (string * string * jsval)%type.

(* ------------------------------------------------------------------ *)
(** ** Observable events *)

(** Engine events record invocations; file-system events record
    operations that succeeded. *)
Inductive event : Type :=
| ConsoleLog (line : string)
| ConsoleError (line : string)
| ConsoleErrorExn (e : exn)
| EngineInject (type name : string) (value : jsval)
| EngineProcess (config_text : string) (debug : bool)
| FsRemove (path : string)
| FsMkdirp (path : string)
| FsWriteFile (path : string) (data : jsval)
| FsWatch (path : string).

Record world : Type := {
  disk : disk_t;
  config_text_var : string;
  trace : list event
}.

Definition emit (e : event) (w : world) : world :=
  {| disk := disk w;
     config_text_var := config_text_var w;
     trace := trace w ++ [e] |}.

Definition emit_all (es : list event) (w : world) : world :=
  {| disk := disk w;
     config_text_var := config_text_var w;
     trace := trace w ++ es |}.

(* ------------------------------------------------------------------ *)
(** ** The effect monad *)

Definition M (A : Type) : Type := world -> outcome A * world.

Definition ret {A} (a : A) : M A := fun w => (Ok a, w).

Definition throw {A} (e : exn) : M A := fun w => (Throw e, w).

Definition bind {A B} (m : M A) (k : A -> M B) : M B :=
  fun w =>
    match m w with
    | (Ok a, w') => k a w'
    | (Throw e, w') => (Throw e, w')
    end.

(** [try { m } catch (err) { h err }] *)
Definition try_catch {A} (m : M A) (h : exn -> M A) : M A :=
  fun w =>
    match m w with
    | (Ok a, w') => (Ok a, w')
    | (Throw e, w') => h e w'
    end.

Definition lift {A} (o : outcome A) : M A := fun w => (o, w).

Declare Scope js_scope.
Delimit Scope js_scope with js.
Notation "x <- m ;; k" := (bind m (fun x => k))
  (at level 61, m at next level, right associativity) : js_scope.
Notation "m ;; k" := (bind m (fun _ => k))
  (at level 61, right associativity) : js_scope.
Open Scope js_scope.

(** [for (const x of xs) body(x)] *)
Fixpoint for_of {A} (xs : list A) (body : A -> M unit) : M unit :=
  match xs with
  | [] => ret tt
  | x :: rest => body x ;; for_of rest body
  end.

Definition console_log (s : string) : M unit :=
  fun w => (Ok tt, emit (ConsoleLog s) w).

Definition console_error (s : string) : M unit :=
  fun w => (Ok tt, emit (ConsoleError s) w).

Definition console_error_exn (e : exn) : M unit :=
  fun w => (Ok tt, emit (ConsoleErrorExn e) w).

(* ------------------------------------------------------------------ *)
(** ** Collaborators *)

(** Node's default since v15 is to raise an unhandled promise rejection
    as an uncaught exception, which ends the process with code 1;
    earlier versions print a warning and carry on. *)
Inductive rejection_mode : Type :=
| RejectionThrows
| RejectionWarns.

(** [yaml.dump]'s second argument. *)
Record dump_options : Type := {
  indent : nat;
  noRefs : bool
}.

Class Host : Type := {
  (** [require('../package.json').version] *)
  pkg_version : string;

  (** [path] *)
  path_sep : string;
  path_resolve : string -> string;
  path_resolve2 : string -> string -> string;
  path_join : string -> string -> string;
  path_dirname : string -> string;
  path_basename : string -> string;

  (** [jszip]: an archive under construction and a handle on one of its
      folders.  [folder] returns a new handle on the same archive. *)
  zip : Type;
  zip_handle : Type;
  jszip_new : zip;
  jszip_root : zip_handle;
  jszip_folder : zip -> zip_handle -> string -> zip * zip_handle;
  jszip_file : zip -> zip_handle -> string -> stream -> zip;
  jszip_loadAsync : string -> outcome zip;

  (** [io.unpack]; it reads the streams of the archive from the disk. *)
  io_unpack : disk_t -> zip -> outcome (string * list injection);

  (** [yaml.dump] *)
  yaml_dump : jsval -> dump_options -> outcome string;

  (** [ergogen.inject], given the injections of the earlier calls:
      [Some e] when it throws [e]. *)
  ergogen_inject : list injection -> injection -> option exn;

  (** [ergogen.process], given the injections of the earlier [inject]
      calls: the lines sent to the log sink and the result. *)
  ergogen_process :
    list injection -> string -> bool -> list string * outcome jsval;

  (** Whether an operation on the file system fails ([Some e]: it
      throws [e] and changes nothing), given the events so far. *)
  fs_fault : list event -> event -> option exn;

  unhandled_rejections : rejection_mode
}.

(** The injections handed to the engine so far, oldest first. *)
Fixpoint registry (tr : list event) : list injection :=
  match tr with
  | [] => []
  | EngineInject t n v :: rest => (t, n, v) :: registry rest
  | _ :: rest => registry rest
  end.

Section Cli.

Context {H : Host}.

(** *** [fs] *)

Definition fs_op (e : event) : M unit :=
  fun w =>
    match fs_fault (trace w) e with
    | Some err => (Throw err, w)
    | None => (Ok tt, emit e w)
    end.

Definition removeSync (p : string) : M unit := fs_op (FsRemove p).
Definition mkdirpSync (p : string) : M unit := fs_op (FsMkdirp p).
Definition writeFileSync (p : string) (data : jsval) : M unit :=
  fs_op (FsWriteFile p data).

(** [fs.watch(p, listener)]; the listener is [on_watch_event]. *)
Definition fs_watch (p : string) : M unit := fs_op (FsWatch p).

(** What [fs.existsSync] answers: false for a path that is missing and
    for a path that cannot be reached ([stat] fails on it). *)
Definition path_exists (d : disk_t) (p : string) : bool :=
  match d p with
  | Some (Broken _) | None => false
  | Some _ => true
  end.

Definition existsSync (p : string) : M bool :=
  fun w => (Ok (path_exists (disk w) p), w).

Definition readFileSync (p : string) : M string :=
  fun w =>
    match disk w p with
    | Some (File content) => (Ok content, w)
    | Some (Dir _) => (Throw (SystemError "EISDIR" p), w)
    | Some (Denied false e) => (Throw e, w)
    | Some (Denied true _) => (Throw (SystemError "EISDIR" p), w)
    | Some (Broken e) => (Throw e, w)
    | None => (Throw (SystemError "ENOENT" p), w)
    end.

(** [fs.statSync(p).isDirectory()] *)
Definition statSync_isDirectory (p : string) : M bool :=
  fun w =>
    match disk w p with
    | Some (File _) => (Ok false, w)
    | Some (Dir _) => (Ok true, w)
    | Some (Denied d _) => (Ok d, w)
    | Some (Broken e) => (Throw e, w)
    | None => (Throw (SystemError "ENOENT" p), w)
    end.

(** *** Input helpers *)

(** [list_files_in_dir]: [readdir] on the directory, then for every
    entry [stat] and either recurse or keep the resolved path;
    [Promise.all] keeps the order of the listing and rejects with an
    error of one of its members (here the first in listing order);
    [flat] concatenates. *)
Fixpoint list_files_in_dir (dir : string) (node : fsnode)
  : outcome (list string) :=
  match node with
  | Dir entries =>
      (fix each (l : list (string * fsnode)) : outcome (list string) :=
         match l with
         | [] => Ok []
         | (file, child) :: rest =>
             let fullPath := path_resolve2 dir file in
             let here :=
               match child with
               | Broken e => Throw e
               | Dir _ | Denied true _ => list_files_in_dir fullPath child
               | File _ | Denied false _ => Ok [fullPath]
               end in
             match here, each rest with
             | Ok a, Ok b => Ok (a ++ b)
             | Throw e, _ => Throw e
             | Ok _, Throw e => Throw e
             end
         end) entries
  | Denied true e => Throw e
  | File _ | Denied false _ => Throw (SystemError "ENOTDIR" dir)
  | Broken e => Throw e
  end.

(** [await list_files_in_dir(dir)] on the disk as it is. *)
Definition readdir_tree (dir : string) : M (list string) :=
  fun w =>
    match disk w dir with
    | Some node => (list_files_in_dir dir node, w)
    | None => (Throw (SystemError "ENOENT" dir), w)
    end.

(** The inner [reduce] of [zip_from_dir]: walk down the folder chain. *)
Definition zip_folder_chain (z : zip) (segments : list string)
  : zip * zip_handle :=
  fold_left (fun '(z, zf) dirName => jszip_folder z zf dirName)
            segments (z, jszip_root).

Definition zip_add_file (absRoot : string) (z : zip) (filePath : string)
  : zip :=
  let relative := JsString.replace filePath absRoot "" in
  let '(z', zipFolder) :=
    zip_folder_chain z
      (JsString.split (path_dirname relative) path_sep) in
  jszip_file z' zipFolder (path_basename filePath) (ReadStream filePath).

Definition zip_from_dir (dir : string) : M zip :=
  let absRoot := path_resolve dir in
  filePaths <- readdir_tree dir ;;
  ret (fold_left (zip_add_file absRoot) filePaths jszip_new).

(** *** Output helpers *)

Definition yamldump (data : jsval) : M string :=
  lift (yaml_dump data {| indent := 4; noRefs := true |}).

Definition single (data : jsval) (output_directory rel : string) : M unit :=
  if negb (truthy data) then ret tt
  else
    let abs := path_join output_directory rel in
    mkdirpSync (path_dirname abs) ;;
    if JsString.endsWith abs ".yaml"
    then text <- yamldump data ;; writeFileSync abs (VStr text)
    else writeFileSync abs data.

Definition composite_format (data : jsval) (abs format : string) : M unit :=
  v <- lift (get_prop data format) ;;
  if truthy v
  then mkdirpSync (path_dirname abs) ;;
       writeFileSync (abs ++ "." ++ format) v
  else ret tt.

Definition composite (data : jsval) (output_directory rel : string)
  : M unit :=
  if negb (truthy data) then ret tt
  else
    let abs := path_join output_directory rel in
    y <- lift (get_prop data "yaml") ;;
    (if truthy y
     then mkdirpSync (path_dirname abs) ;;
          text <- yamldump y ;;
          writeFileSync (abs ++ ".yaml") (VStr text)
     else ret tt) ;;
    for_of ["svg"; "dxf"; "jscad"] (composite_format data abs).

(** *** The engine *)

Definition inject (type name : string) (value : jsval) : M unit :=
  fun w =>
    let w' := emit (EngineInject type name value) w in
    match ergogen_inject (registry (trace w)) (type, name, value) with
    | Some err => (Throw err, w')
    | None => (Ok tt, w')
    end.

(** [ergogen.process(config_text, debug, s => console.log(s))] *)
Definition process (config_text : string) (debug : bool) : M jsval :=
  fun w =>
    let '(lines, result) :=
      ergogen_process (registry (trace w)) config_text debug in
    (result,
     emit_all (EngineProcess config_text debug :: map ConsoleLog lines) w).

(** *** [read_config] *)

Definition is_bundle_path (config_file : string) : bool :=
  JsString.endsWith config_file ".zip"
  || JsString.endsWith config_file ".ekb".

Definition unpack (z : zip) : M (string * list injection) :=
  fun w => (io_unpack (disk w) z, w).

(** The three-way branch inside the [try]: it assigns
    [[config_text, injections]]. *)
Definition read_bundle (config_file : string)
  : M (string * list injection) :=
  if is_bundle_path config_file then
    console_log "Analyzing bundle..." ;;
    bytes <- readFileSync config_file ;;
    z <- lift (jszip_loadAsync bytes) ;;
    unpack z
  else
    is_dir <- statSync_isDirectory config_file ;;
    if (is_dir : bool) then
      console_log "Analyzing folder..." ;;
      z <- zip_from_dir config_file ;;
      unpack z
    else
      text <- readFileSync config_file ;;
      ret (text, [])
      (* no injections... *).

Definition could_not_read (config_file : string) : string :=
  "Could not read config file " ++ JsString.dquote ++ config_file
    ++ JsString.dquote ++ "!".

Definition read_config (config_file : string) : M string :=
  try_catch
    (bundle <- read_bundle config_file ;;
     let '(config_text, injections) := bundle in
     for_of injections (fun '(type, name, value) =>
                          inject type name value) ;;
     ret config_text)
    (fun err =>
       console_error (could_not_read config_file) ;;
       throw err).

(** *** Generation *)

Definition process_context (config_text : string) (debug : bool)
  : M jsval :=
  results <- process config_text debug ;;
  ret results.

(** [for (const [name, v] of Object.entries(results.key)) body(name, v)] *)
Definition for_entries (results : jsval) (key : string)
           (body : string -> jsval -> M unit) : M unit :=
  table <- lift (get_prop results key) ;;
  entries <- lift (object_entries table) ;;
  for_of entries (fun '(name, v) => body name v).

(** [f(results.key, output_directory, rel)] *)
Definition write_key (f : jsval -> string -> string -> M unit)
           (results : jsval) (key output_directory rel : string) : M unit :=
  v <- lift (get_prop results key) ;;
  f v output_directory rel.

Definition generate_output (results : jsval) (output_directory : string)
           (clean : bool) : M unit :=
  (if clean
   then console_log "Cleaning output folder..." ;;
        removeSync output_directory
   else ret tt) ;;
  console_log "Writing output to disk..." ;;
  mkdirpSync output_directory ;;
  write_key single results "raw" output_directory "source/raw.txt" ;;
  write_key single results "canonical" output_directory
            "source/canonical.yaml" ;;
  write_key single results "units" output_directory "points/units.yaml" ;;
  write_key single results "points" output_directory "points/points.yaml" ;;
  write_key composite results "demo" output_directory "points/demo" ;;
  for_entries results "outlines" (fun name outline =>
    composite outline output_directory ("outlines/" ++ name)) ;;
  for_entries results "cases" (fun name _case =>
    composite _case output_directory ("cases/" ++ name)) ;;
  for_entries results "pcbs" (fun name pcb =>
    single pcb output_directory ("pcbs/" ++ name ++ ".kicad_pcb")).

Definition generate (config_text output_directory : string)
           (clean debug : bool) : M unit :=
  try_catch
    (results <- process_context config_text debug ;;
     generate_output results output_directory clean)
    (fun err => console_error_exn err) ;;
  console_log "Done." ;;
  console_log "".

(** *** The top-level function *)

(** [yargs(...).argv]: [arg_config] is [args._[0]]. *)
Record args : Type := {
  arg_config : option string;
  arg_output : string;
  arg_debug : bool;
  arg_clean : bool;
  arg_watch : bool
}.

(** Assignment to the [config_text] of the top-level function. *)
Definition set_var (text : string) (w : world) : world :=
  {| disk := disk w; config_text_var := text; trace := trace w |}.

Definition set_config_text (text : string) : M unit :=
  fun w => (Ok tt, set_var text w).

Definition get_config_text : M string :=
  fun w => (Ok (config_text_var w), w).

(** How the top-level function ends when nothing is thrown:
    [process.exit(code)] was called, it ran to its end, or it ran to
    its end with a watcher registered. *)
Inductive completion : Type :=
| ProcessExit (code : Z)
| Finished
| WatcherRegistered.

Definition banner (a : args) : string :=
  "Ergogen v" ++ pkg_version ++ " CLI"
    ++ (if arg_debug a then " (Debug Mode)" else "").

Definition main (a : args) : M completion :=
  console_log (banner a) ;;
  console_log "" ;;
  match arg_config a with
  | None | Some EmptyString =>
      console_error "Usage: ergogen <config_file> [options]" ;;
      ret (ProcessExit 1)
  | Some config_file =>
      present <- existsSync config_file ;;
      if negb present then
        console_error
          ("Could not read config file " ++ JsString.dquote ++ config_file
             ++ JsString.dquote ++ ": File does not exist!") ;;
        ret (ProcessExit 2)
      else
        config_text <- read_config config_file ;;
        set_config_text config_text ;;
        if arg_watch a then
          console_log
            ("Watching " ++ JsString.dquote ++ config_file
               ++ JsString.dquote ++ " for changes... (Ctrl+C to stop)") ;;
          config_text <- get_config_text ;;
          generate config_text (arg_output a) (arg_clean a) (arg_debug a) ;;
          fs_watch config_file ;;
          ret WatcherRegistered
        else
          config_text <- read_config config_file ;;
          generate config_text (arg_output a) (arg_clean a) (arg_debug a) ;;
          ret Finished
  end.

(** The listener passed to [fs.watch]. *)
Definition on_watch_event (a : args) (config_file event : string)
  : M unit :=
  if negb (String.eqb event "change") then ret tt
  else
    new_config_text <- read_config config_file ;;
    config_text <- get_config_text ;;
    if String.eqb new_config_text config_text then ret tt
    else
      set_config_text new_config_text ;;
      console_log
        (JsString.dquote ++ config_file ++ JsString.dquote
           ++ " changed, regenerating...") ;;
      config_text <- get_config_text ;;
      generate config_text (arg_output a) (arg_clean a) (arg_debug a).

(** *** The process around it *)

Inductive process_state : Type :=
| Exited (code : Z)
| Watching.

(** Nothing in the file handles a rejection of the top-level promise
    or of a listener's promise: the host decides. *)
Definition unhandled (alive : process_state) : process_state :=
  match unhandled_rejections with
  | RejectionThrows => Exited 1
  | RejectionWarns => alive
  end.

Definition run_main (a : args) (w : world) : process_state * world :=
  match main a w with
  | (Ok (ProcessExit code), w') => (Exited code, w')
  | (Ok Finished, w') => (Exited 0, w')
  | (Ok WatcherRegistered, w') => (Watching, w')
  | (Throw _, w') => (unhandled (Exited 0), w')
  end.

(** One notification: the kind of event and the disk as it is when
    the listener runs. *)
Record notification : Type := {
  n_event : string;
  n_disk : disk_t
}.

Definition with_disk (d : disk_t) (w : world) : world :=
  {| disk := d; config_text_var := config_text_var w; trace := trace w |}.

(** The process while watching: each notification runs the listener to
    its end before the next one is delivered. *)
Fixpoint watch_loop (a : args) (config_file : string)
         (ns : list notification) (w : world) : process_state * world :=
  match ns with
  | [] => (Watching, w)
  | n :: rest =>
      match on_watch_event a config_file (n_event n)
                           (with_disk (n_disk n) w) with
      | (Ok _, w') => watch_loop a config_file rest w'
      | (Throw _, w') =>
          match unhandled Watching with
          | Watching => watch_loop a config_file rest w'
          | Exited code => (Exited code, w')
          end
      end
  end.

End Cli.

(* ------------------------------------------------------------------ *)
(** ** A small host to run the model on

    A POSIX [path] restricted to absolute, normalised paths, an archive
    that is a list of named entries, a splitter that takes [config.yaml]
    and every [footprints/*.js], an engine that echoes its input, and an
    output disk that never fails.  It serves to evaluate the definitions
    on concrete inputs; no theorem about [cli.js] depends on it. *)

Module Demo.

Fixpoint join (sep : string) (parts : list string) : string :=
  match parts with
  | [] => ""
  | [p] => p
  | p :: rest => (p ++ sep ++ join sep rest)%string
  end.

Definition dirname (p : string) : string :=
  match join "/" (removelast (JsString.split p "/")) with
  | EmptyString => if prefix "/" p then "/" else "."
  | d => d
  end.

Definition basename (p : string) : string :=
  last (JsString.split p "/") "".

Inductive entry : Type :=
| Folder
| Lazy (s : stream)
| Data (content : string).

Definition archive : Type := list (string * entry).

Definition has_entry (name : string) (z : archive) : bool :=
  existsb (fun e => String.eqb (fst e) name) z.

Definition folder (z : archive) (root name : string) : archive * string :=
  match name with
  | EmptyString => (z, root)
  | _ =>
      let full := (root ++ name ++ "/")%string in
      (if has_entry full z then z else z ++ [(full, Folder)], full)
  end.

Definition file (z : archive) (root name : string) (s : stream) : archive :=
  z ++ [((root ++ name)%string, Lazy s)].

Definition loadAsync (bytes : string) : outcome archive :=
  if prefix "PK" bytes
  then Ok [("config.yaml",
            Data (substring 2 (String.length bytes - 2) bytes))]
  else Throw (LibError "End of central directory not found").

Definition read_entry (d : disk_t) (e : entry) : outcome string :=
  match e with
  | Data c => Ok c
  | Lazy (ReadStream p) =>
      match d p with
      | Some (File c) => Ok c
      | _ => Throw (SystemError "ENOENT" p)
      end
  | Folder => Throw (LibError "not a file")
  end.

Fixpoint footprints (d : disk_t) (z : archive) : outcome (list injection) :=
  match z with
  | [] => Ok []
  | (name, e) :: rest =>
      if prefix "footprints/" name && JsString.endsWith name ".js" then
        match read_entry d e, footprints d rest with
        | Ok text, Ok more =>
            Ok (("footprint",
                 substring 11 (String.length name - 14) name,
                 VStr text) :: more)
        | Throw err, _ => Throw err
        | _, Throw err => Throw err
        end
      else footprints d rest
  end.

Definition unpack (d : disk_t) (z : archive)
  : outcome (string * list injection) :=
  match find (fun e => String.eqb (fst e) "config.yaml") z with
  | Some (_, e) =>
      match read_entry d e, footprints d z with
      | Ok text, Ok injections => Ok (text, injections)
      | Throw err, _ => Throw err
      | _, Throw err => Throw err
      end
  | None => Throw (LibError "Ambiguous config in bundle!")
  end.

Definition dump (v : jsval) (o : dump_options) : outcome string :=
  match v with
  | VUndefined => Throw (LibError "unacceptable kind of an object to dump")
  | VStr s => Ok s
  | _ => Ok "{}"
  end.

Definition engine (reg : list injection) (config_text : string)
           (debug : bool) : list string * outcome jsval :=
  match config_text with
  | EmptyString =>
      ([], Throw (LibError "Input does not contain a points clause!"))
  | _ =>
      ([], Ok (VObj [("raw", VStr config_text);
                     ("outlines", VObj []);
                     ("cases", VObj []);
                     ("pcbs", VObj [])]))
  end.

#[export] Instance host : Host := {|
  pkg_version := "4.1.0";
  path_sep := "/";
  path_resolve := fun p => p;
  path_resolve2 := fun d f => (d ++ "/" ++ f)%string;
  path_join := fun a b => (a ++ "/" ++ b)%string;
  path_dirname := dirname;
  path_basename := basename;
  zip := archive;
  zip_handle := string;
  jszip_new := [];
  jszip_root := "";
  jszip_folder := folder;
  jszip_file := file;
  jszip_loadAsync := loadAsync;
  io_unpack := unpack;
  yaml_dump := dump;
  ergogen_inject := fun _ _ => None;
  ergogen_process := engine;
  fs_fault := fun _ _ => None;
  unhandled_rejections := RejectionThrows
|}.

(** A keyboard folder: a config and one custom footprint. *)
Definition keyboard : fsnode :=
  Dir [("config.yaml", File "points: {}");
       ("footprints", Dir [("custom.js", File "module.exports = {}")])].

(** The disk that holds [keyboard] at [root]. *)
Definition disk_of (root : string) : disk_t :=
  fun p =>
    if String.eqb p root then Some keyboard
    else if String.eqb p (root ++ "/config.yaml")%string
    then Some (File "points: {}")
    else if String.eqb p (root ++ "/footprints/custom.js")%string
    then Some (File "module.exports = {}")
    else None.

Definition boot (d : disk_t) : world :=
  {| disk := d; config_text_var := ""; trace := [] |}.

Definition cli (config_file : string) (watch : bool) : args :=
  {| arg_config := Some config_file;
     arg_output := "/out";
     arg_debug := false;
     arg_clean := false;
     arg_watch := watch |}.

End Demo.

(** The same host with an output disk that has a read-only corner, a
    [yaml.dump] that refuses every mapping, an engine that rejects
    injections named [bad], and a runtime that only warns about
    unhandled rejections.  It serves to run the failure paths. *)
Module Faulty.

Definition dump (v : jsval) (o : dump_options) : outcome string :=
  match v with
  | VObj _ => Throw (LibError "unacceptable kind of an object to dump")
  | _ => Demo.dump v o
  end.

Definition fault (tr : list event) (e : event) : option exn :=
  match e with
  | FsRemove p | FsMkdirp p | FsWriteFile p _ | FsWatch p =>
      if prefix "/ro" p then Some (SystemError "EROFS" p) else None
  | _ => None
  end.

Definition reject (reg : list injection) (i : injection) : option exn :=
  let '(type, name, value) := i in
  if String.eqb name "bad"
  then Some (LibError "Unknown injection type")
  else None.

#[export] Instance host : Host := {|
  pkg_version := "4.1.0";
  path_sep := "/";
  path_resolve := fun p => p;
  path_resolve2 := fun d f => (d ++ "/" ++ f)%string;
  path_join := fun a b => (a ++ "/" ++ b)%string;
  path_dirname := Demo.dirname;
  path_basename := Demo.basename;
  zip := Demo.archive;
  zip_handle := string;
  jszip_new := [];
  jszip_root := "";
  jszip_folder := Demo.folder;
  jszip_file := Demo.file;
  jszip_loadAsync := Demo.loadAsync;
  io_unpack := Demo.unpack;
  yaml_dump := dump;
  ergogen_inject := reject;
  ergogen_process := Demo.engine;
  fs_fault := fault;
  unhandled_rejections := RejectionWarns
|}.

(** A keyboard folder with three custom footprints; every file reads as
    "text". *)
Definition disk : disk_t :=
  fun p =>
    if String.eqb p "/kb"
    then Some (Dir [("config.yaml", File "text");
                    ("footprints",
                     Dir [("a.js", File "text"); ("bad.js", File "text");
                          ("c.js", File "text")])])
    else Some (File "text").

End Faulty.

(* ------------------------------------------------------------------ *)
(** ** Vocabulary of the properties *)

(** The events a run appended to the trace. *)
Definition events_since (w w' : world) : list event :=
  skipn (List.length (trace w)) (trace w').

(** The files written and the directories created by a list of events. *)
Definition written (es : list event) : list (string * jsval) :=
  flat_map (fun e => match e with
                     | FsWriteFile p d => [(p, d)]
                     | _ => []
                     end) es.

Definition created (es : list event) : list string :=
  flat_map (fun e => match e with
                     | FsMkdirp p => [p]
                     | _ => []
                     end) es.

(** The "not produced" sentinel: a key the engine left out, or set to
    [null]. *)
Definition absent (v : jsval) : bool :=
  match v with
  | VUndefined | VNull => true
  | _ => false
  end.

(** The payload has a property under this format tag. *)
Definition has_tag (tag : string) (props : list (string * jsval)) : bool :=
  existsb (fun kv => String.eqb tag (fst kv)) props.

Definition format_tags : list string := ["yaml"; "svg"; "dxf"; "jscad"].

(** Events of a regeneration: an engine run or a change of the output
    directory. *)
Definition is_regeneration_event (e : event) : Prop :=
  match e with
  | EngineProcess _ _ | FsRemove _ | FsMkdirp _ | FsWriteFile _ _ => True
  | _ => False
  end.

(** Events of a generation: the engine run, its log, the output
    operations and the report of a caught error. *)
Definition is_generation_event (e : event) : Prop :=
  match e with
  | ConsoleLog _ | ConsoleErrorExn _ | EngineProcess _ _
  | FsRemove _ | FsMkdirp _ | FsWriteFile _ _ => True
  | _ => False
  end.

(** Events of resolving a config path. *)
Definition is_resolve_event (e : event) : Prop :=
  match e with
  | ConsoleLog _ | ConsoleError _ | EngineInject _ _ _ => True
  | _ => False
  end.

(** The event of registering an injection. *)
Definition inject_event (i : injection) : event :=
  let '(type, name, value) := i in EngineInject type name value.

(** No output operation ever fails on this host. *)
Definition fault_free (H : Host) : Prop :=
  forall tr e, fs_fault tr e = None.



(** A tree the archiver can enumerate: [stat] succeeds on every entry
    and every directory can be listed.  A file that cannot be read is
    fine: the archive only holds a stream on it. *)
Fixpoint listable (node : fsnode) : bool :=
  match node with
  | File _ | Denied false _ => true
  | Dir entries =>
      (fix all (l : list (string * fsnode)) : bool :=
         match l with
         | [] => true
         | (_, child) :: rest => listable child && all rest
         end) entries
  | Denied true _ | Broken _ => false
  end.

(** The regular files of a tree, depth first in the order of the
    listings, each with the chain of folders that leads to it from the
    root and its name. *)
Fixpoint tree_files (folders : list string) (node : fsnode)
  : list (list string * string) :=
  match node with
  | Dir entries =>
      (fix each (l : list (string * fsnode)) : list (list string * string) :=
         match l with
         | [] => []
         | (name, child) :: rest =>
             match child with
             | Dir _ => tree_files (folders ++ [name]) child
             | File _ | Denied false _ => [(folders, name)]
             | Denied true _ | Broken _ => []
             end ++ each rest
         end) entries
  | _ => []
  end.

Section Statements.

Context {H : Host}.

(** The config path resolves on this disk, whatever happened before. *)
Definition resolves (config_file : string) (d : disk_t) : Prop :=
  forall w, disk w = d ->
            exists text w', read_config config_file w = (Ok text, w').




(** The try block of [generate]. *)
Definition generate_body (config_text output_directory : string)
           (clean debug : bool) : M unit :=
  results <- process_context config_text debug ;;
  generate_output results output_directory clean.

End Statements.

(** The composite-subset property read literally: a payload that has the
    tags svg and dxf and neither yaml nor jscad yields exactly the two
    files, with the payload's values. *)
Definition composite_subset_claim (H : Host) : Prop :=
  forall props output_directory rel w,
    fault_free H ->
    has_tag "svg" props = true -> has_tag "dxf" props = true ->
    has_tag "yaml" props = false -> has_tag "jscad" props = false ->
    let abs := path_join output_directory rel in
    exists w',
      composite (VObj props) output_directory rel w = (Ok tt, w') /\
      written (events_since w w') =
        [((abs ++ ".svg")%string, assoc "svg" props);
         ((abs ++ ".dxf")%string, assoc "dxf" props)].



(* ------------------------------------------------------------------ *)
(** ** Vocabulary of the further properties *)

(** The regular files of a tree, at any depth. *)
Fixpoint count_files (node : fsnode) : nat :=
  match node with
  | File _ | Denied false _ => 1
  | Dir entries =>
      (fix sum (l : list (string * fsnode)) : nat :=
         match l with
         | [] => 0
         | (_, child) :: rest => count_files child + sum rest
         end) entries
  | Denied true _ | Broken _ => 0
  end.

(** The path [list_files_in_dir] builds for a file: the names of the
    chain resolved one after the other, from the directory listed. *)
Definition resolved_from `{H : Host} (dir : string)
           (item : list string * string) : string :=
  fold_left path_resolve2 (fst item ++ [snd item]) dir.

(** Induction on a tree, with the property of every entry of a
    directory at hand. *)
Section FsnodeInduction.

Variable P : fsnode -> Prop.
Hypothesis HFile : forall content, P (File content).
Hypothesis HDir :
  forall entries, Forall (fun e => P (snd e)) entries -> P (Dir entries).
Hypothesis HDenied : forall is_dir e, P (Denied is_dir e).
Hypothesis HBroken : forall e, P (Broken e).

Fixpoint fsnode_tree_ind (node : fsnode) : P node :=
  match node with
  | File content => HFile content
  | Dir entries =>
      HDir
        ((fix each (l : list (string * fsnode))
            : Forall (fun e => P (snd e)) l :=
            match l with
            | [] => Forall_nil _
            | e :: rest =>
                Forall_cons e (fsnode_tree_ind (snd e)) (each rest)
            end) entries)
  | Denied is_dir e => HDenied is_dir e
  | Broken e => HBroken e
  end.

End FsnodeInduction.

(** What [list_files_in_dir] does with one entry of a listing, once its
    path is resolved. *)
Definition list_child `{H : Host} (fullPath : string) (child : fsnode)
  : outcome (list string) :=
  match child with
  | Broken e => Throw e
  | Dir _ | Denied true _ => list_files_in_dir fullPath child
  | File _ | Denied false _ => Ok [fullPath]
  end.

(** The engine runs, the removals and the watchers in a list of
    events. *)
Definition engine_runs (es : list event) : list (string * bool) :=
  flat_map (fun e => match e with
                     | EngineProcess text debug => [(text, debug)]
                     | _ => []
                     end) es.

Definition removed (es : list event) : list string :=
  flat_map (fun e => match e with
                     | FsRemove p => [p]
                     | _ => []
                     end) es.

(** Events of writing results: log lines and operations on the output
    directory. *)
Definition is_output_event (e : event) : Prop :=
  match e with
  | ConsoleLog _ | FsRemove _ | FsMkdirp _ | FsWriteFile _ _ => True
  | _ => False
  end.

(** The names of a table of the result tree, as [Object.entries]
    enumerates them; none when the table cannot be enumerated. *)
Definition table_names (results : jsval) (key : string) : list string :=
  match get_prop results key with
  | Ok table =>
      match object_entries table with
      | Ok entries => map fst entries
      | Throw _ => []
      end
  | Throw _ => []
  end.

(** The relative names [generate_output] joins to the output directory:
    the five fixed ones, and one for every name of the three tables,
    taken as it is. *)
Definition targets (results : jsval) : list string :=
  ["source/raw.txt"; "source/canonical.yaml"; "points/units.yaml";
   "points/points.yaml"; "points/demo"]
    ++ map (fun name => "outlines/" ++ name)%string
           (table_names results "outlines")
    ++ map (fun name => "cases/" ++ name)%string
           (table_names results "cases")
    ++ map (fun name => "pcbs/" ++ name ++ ".kicad_pcb")%string
           (table_names results "pcbs").

(** What writing these results may do, with the paths: the two log
    lines; a removal of the root, when cleaning; the creation of the
    root or of the parent of a joined target; a write to a joined
    target, or to a joined target followed by a dot and a format tag. *)
Definition is_output_operation `{H : Host} (results : jsval)
           (output_directory : string) (clean : bool) (e : event) : Prop :=
  match e with
  | ConsoleLog line =>
      (clean = true /\ line = "Cleaning output folder...") \/
      line = "Writing output to disk..."
  | FsRemove p => clean = true /\ p = output_directory
  | FsMkdirp p =>
      p = output_directory \/
      exists rel, In rel (targets results) /\
                  p = path_dirname (path_join output_directory rel)
  | FsWriteFile p _ =>
      exists rel, In rel (targets results) /\
                  (p = path_join output_directory rel \/
                   exists tag, In tag format_tags /\
                               p = (path_join output_directory rel
                                      ++ "." ++ tag)%string)
  | _ => False
  end.

(** How [generate_output] starts on a disk without faults: the root is
    removed if asked, then created. *)
Definition root_prefix (output_directory : string) (clean : bool)
  : list event :=
  (if clean
   then [ConsoleLog "Cleaning output folder..."; FsRemove output_directory]
   else [])
    ++ [ConsoleLog "Writing output to disk..."; FsMkdirp output_directory].

(** A computation that throws from every world. *)
Definition always_throws {A} (m : M A) : Prop :=
  forall w, exists e, fst (m w) = Throw e.

(** What writing the results may add: log lines and operations on the
    output directory, of which a removal only of the root and only when
    cleaning. *)
Definition is_materialization_event (output_directory : string)
           (clean : bool) (e : event) : Prop :=
  match e with
  | ConsoleLog _ | FsMkdirp _ | FsWriteFile _ _ => True
  | FsRemove p => clean = true /\ p = output_directory
  | _ => False
  end.

(** What a generation may add after the engine run: the same, and the
    report of a caught error. *)
Definition is_generation_step (output_directory : string) (clean : bool)
           (e : event) : Prop :=
  is_materialization_event output_directory clean e \/
  exists err, e = ConsoleErrorExn err.

(** Lines printed with [console.log]. *)
Definition is_log (e : event) : Prop :=
  match e with
  | ConsoleLog _ => True
  | _ => False
  end.

(** What [composite] writes for one of the verbatim tags. *)
Definition verbatim_file (props : list (string * jsval)) (abs tag : string)
  : list (string * jsval) :=
  if truthy (assoc tag props)
  then [((abs ++ "." ++ tag)%string, assoc tag props)]
  else [].



(* ------------------------------------------------------------------ *)
(** ** Reasoning about traces *)

Lemma emit_all_nil (w : world) : emit_all [] w = w.
Proof.
  destruct w as [d v tr]. unfold emit_all; simpl. now rewrite app_nil_r.
Qed.

Lemma emit_all_app (es1 es2 : list event) (w : world) :
  emit_all es2 (emit_all es1 w) = emit_all (es1 ++ es2) w.
Proof.
  unfold emit_all; simpl. now rewrite app_assoc.
Qed.

Lemma emit_is_emit_all (e : event) (w : world) : emit e w = emit_all [e] w.
Proof. reflexivity. Qed.


(** [emits P m]: whatever [m] does, it leaves the disk and the variable
    alone and appends to the trace only events that satisfy [P]. *)
Definition emits {A} (P : event -> Prop) (m : M A) : Prop :=
  forall w, exists r es, m w = (r, emit_all es w) /\ Forall P es.

Section Emits.

Variable P : event -> Prop.

Lemma emits_ret {A} (a : A) : emits P (ret a).
Proof.
  intros w. exists (Ok a), []. split; [|constructor].
  unfold ret. now rewrite emit_all_nil.
Qed.

Lemma emits_throw {A} (e : exn) : emits P (@throw A e).
Proof.
  intros w. exists (Throw e), []. split; [|constructor].
  unfold throw. now rewrite emit_all_nil.
Qed.

Lemma emits_lift {A} (o : outcome A) : emits P (lift o).
Proof.
  intros w. exists o, []. split; [|constructor].
  unfold lift. now rewrite emit_all_nil.
Qed.

Lemma emits_bind {A B} (m : M A) (k : A -> M B) :
  emits P m -> (forall a, emits P (k a)) -> emits P (bind m k).
Proof.
  intros Hm Hk w. destruct (Hm w) as (r & es & E & F).
  unfold bind. rewrite E. destruct r as [a|e].
  - destruct (Hk a (emit_all es w)) as (r' & es' & E' & F').
    exists r', (es ++ es'). rewrite E', emit_all_app. split; [reflexivity|].
    apply Forall_app; now split.
  - exists (Throw e), es. now split.
Qed.

Lemma emits_bind_lift {A B} (o : outcome A) (k : A -> M B) :
  (forall a, o = Ok a -> emits P (k a)) -> emits P (bind (lift o) k).
Proof.
  intros Hk w. unfold bind, lift. destruct o as [a|e].
  - now apply Hk.
  - exists (Throw e), []. rewrite emit_all_nil. split; [reflexivity|constructor].
Qed.

Lemma emits_try {A} (m : M A) (h : exn -> M A) :
  emits P m -> (forall e, emits P (h e)) -> emits P (try_catch m h).
Proof.
  intros Hm Hh w. destruct (Hm w) as (r & es & E & F).
  unfold try_catch. rewrite E. destruct r as [a|e].
  - exists (Ok a), es. now split.
  - destruct (Hh e (emit_all es w)) as (r' & es' & E' & F').
    exists r', (es ++ es'). rewrite E', emit_all_app. split; [reflexivity|].
    apply Forall_app; now split.
Qed.

Lemma emits_for_of {A} (xs : list A) (body : A -> M unit) :
  (forall x, In x xs -> emits P (body x)) -> emits P (for_of xs body).
Proof.
  induction xs as [|x xs IH]; simpl; intros Hb.
  - apply emits_ret.
  - apply emits_bind; [apply Hb; now left | intros _].
    apply IH. intros y Hy. apply Hb. now right.
Qed.

Lemma emits_console_log (s : string) :
  P (ConsoleLog s) -> emits P (console_log s).
Proof.
  intros Hp w. exists (Ok tt), [ConsoleLog s]. split; [reflexivity|].
  now repeat constructor.
Qed.

Lemma emits_console_error (s : string) :
  P (ConsoleError s) -> emits P (console_error s).
Proof.
  intros Hp w. exists (Ok tt), [ConsoleError s]. split; [reflexivity|].
  now repeat constructor.
Qed.

Lemma emits_console_error_exn (e : exn) :
  P (ConsoleErrorExn e) -> emits P (console_error_exn e).
Proof.
  intros Hp w. exists (Ok tt), [ConsoleErrorExn e]. split; [reflexivity|].
  now repeat constructor.
Qed.

Context {H : Host}.

Lemma emits_fs_op (e : event) : P e -> emits P (fs_op e).
Proof.
  intros Hp w. unfold fs_op. destruct (fs_fault (trace w) e) as [err|].
  - exists (Throw err), []. rewrite emit_all_nil. split; [reflexivity|constructor].
  - exists (Ok tt), [e]. split; [reflexivity|]. now repeat constructor.
Qed.

Lemma emits_inject (t n : string) (v : jsval) :
  P (EngineInject t n v) -> emits P (inject t n v).
Proof.
  intros Hp w. unfold inject.
  destruct (ergogen_inject (registry (trace w)) (t, n, v)) as [err|].
  - exists (Throw err), [EngineInject t n v]. split; [reflexivity|].
    now repeat constructor.
  - exists (Ok tt), [EngineInject t n v]. split; [reflexivity|].
    now repeat constructor.
Qed.

Lemma emits_read {A} (m : M A) :
  (forall w, snd (m w) = w) -> emits P m.
Proof.
  intros Hm w. exists (fst (m w)), []. rewrite emit_all_nil.
  split; [|constructor]. rewrite <- (Hm w) at 3. now destruct (m w).
Qed.

End Emits.

(** Goals of the form [emits P m] are proved along the structure of
    [m]: [emits_seq] peels the sequencing, the hints close the leaves. *)
Create HintDb emits.

#[export] Hint Resolve emits_ret emits_throw emits_lift emits_console_log
  emits_console_error emits_console_error_exn emits_fs_op emits_inject
  : emits.
#[export] Hint Extern 1 (is_resolve_event _) => exact I : emits.
#[export] Hint Extern 1 (is_generation_event _) => exact I : emits.

#[export] Hint Extern 2 (emits _ (removeSync _)) =>
  apply emits_fs_op : emits.
#[export] Hint Extern 2 (emits _ (mkdirpSync _)) =>
  apply emits_fs_op : emits.
#[export] Hint Extern 2 (emits _ (writeFileSync _ _)) =>
  apply emits_fs_op : emits.

Ltac emits_seq :=
  repeat lazymatch goal with
         | |- emits _ (bind _ _) => apply emits_bind; [|intros ?]
         end;
  auto with emits.

(* ------------------------------------------------------------------ *)
(** ** Auxiliary facts on traces, strings and payloads *)

Lemma events_since_emit_all (es : list event) (w : world) :
  events_since w (emit_all es w) = es.
Proof.
  unfold events_since, emit_all; simpl.
  rewrite skipn_app, skipn_all, Nat.sub_diag. reflexivity.
Qed.

Lemma events_since_refl (w : world) : events_since w w = [].
Proof. unfold events_since. apply skipn_all. Qed.

Lemma append_inv_head (s a b : string) :
  (s ++ a)%string = (s ++ b)%string -> a = b.
Proof.
  induction s as [|c s IH]; simpl; intros E; [exact E|].
  injection E as E. now apply IH.
Qed.

Lemma has_tag_assoc (tag : string) (props : list (string * jsval)) :
  has_tag tag props = false -> assoc tag props = VUndefined.
Proof.
  induction props as [|[k v] props IH]; simpl; [reflexivity|].
  destruct (String.eqb tag k); simpl; [discriminate|exact IH].
Qed.

Lemma in_written (p : string) (d : jsval) (es : list event) :
  In (p, d) (written es) -> In (FsWriteFile p d) es.
Proof.
  unfold written. rewrite in_flat_map. intros (e & He & Hin).
  destruct e; simpl in Hin; try contradiction.
  destruct Hin as [E|[]]. injection E as -> ->. exact He.
Qed.

(* ------------------------------------------------------------------ *)
(** ** The writers *)

Section Writers.

Context {H : Host}.
Variable P : event -> Prop.

(** [yamldump] is [yaml.dump] with an indentation of 4 and without
    references; it reads and changes nothing of the world. *)
Lemma yamldump_options (data : jsval) (w : world) :
  yamldump data w = (yaml_dump data {| indent := 4; noRefs := true |}, w).
Proof. reflexivity. Qed.

Lemma emits_yamldump (data : jsval) : emits P (yamldump data).
Proof. apply emits_lift. Qed.

(** [single] touches at most the parent directory and the target. *)
Lemma single_emits (data : jsval) (output_directory rel : string) :
  let abs := path_join output_directory rel in
  P (FsMkdirp (path_dirname abs)) ->
  (forall d, P (FsWriteFile abs d)) ->
  emits P (single data output_directory rel).
Proof.
  intros abs Hdir Hfile. unfold single.
  destruct (negb (truthy data)); [apply emits_ret|].
  fold abs. apply emits_bind; [now apply emits_fs_op|intros _].
  destruct (JsString.endsWith abs ".yaml").
  - apply emits_bind; [apply emits_yamldump|intros text].
    apply emits_fs_op, Hfile.
  - apply emits_fs_op, Hfile.
Qed.

(** [composite] touches at most the parent directory and, for the
    tags whose value is truthy, the file of that tag. *)
Lemma composite_emits (data : jsval) (output_directory rel : string) :
  let abs := path_join output_directory rel in
  P (FsMkdirp (path_dirname abs)) ->
  (forall tag v d,
      In tag format_tags -> get_prop data tag = Ok v -> truthy v = true ->
      P (FsWriteFile (abs ++ "." ++ tag) d)) ->
  emits P (composite data output_directory rel).
Proof.
  intros abs Hdir Hfile. unfold composite.
  destruct (negb (truthy data)); [apply emits_ret|].
  fold abs. apply emits_bind_lift. intros y Ey.
  apply emits_bind.
  - destruct (truthy y) eqn:Ty; [|apply emits_ret].
    apply emits_bind; [now apply emits_fs_op|intros _].
    apply emits_bind; [apply emits_yamldump|intros text].
    apply emits_fs_op.
    apply (Hfile "yaml" y); [simpl; tauto|exact Ey|exact Ty].
  - intros _. apply emits_for_of. intros format Hin.
    unfold composite_format. apply emits_bind_lift. intros v Ev.
    destruct (truthy v) eqn:Tv; [|apply emits_ret].
    apply emits_bind; [now apply emits_fs_op|intros _].
    apply emits_fs_op. apply (Hfile format v); [|exact Ev|exact Tv].
    simpl in *. tauto.
Qed.

End Writers.

(** C5. Given an absent payload (the key is missing or null), [single]
    and [composite] return at once and leave the world as it was: no
    file is written and no directory is created. *)
Theorem writers_absent_noop `{H : Host} (data : jsval)
        (output_directory rel : string) (w : world) :
  absent data = true ->
  single data output_directory rel w = (Ok tt, w) /\
  composite data output_directory rel w = (Ok tt, w) /\
  written (events_since w (snd (single data output_directory rel w))) = [] /\
  created (events_since w (snd (single data output_directory rel w))) = [] /\
  written (events_since w (snd (composite data output_directory rel w))) = [] /\
  created (events_since w (snd (composite data output_directory rel w))) = [].
Proof.
  intros Ha.
  assert (S : single data output_directory rel w = (Ok tt, w))
    by (destruct data; try discriminate; reflexivity).
  assert (C : composite data output_directory rel w = (Ok tt, w))
    by (destruct data; try discriminate; reflexivity).
  rewrite S, C; simpl. rewrite events_since_refl. repeat split.
Qed.

Lemma writers_absent_noop_witness :
  absent VUndefined = true /\
  single (H := Demo.host) VUndefined "/out" "points/units.yaml"
         (Demo.boot (fun _ => None))
  = (Ok tt, Demo.boot (fun _ => None)).
Proof.
  split; [reflexivity|].
  apply (writers_absent_noop (H := Demo.host) VUndefined "/out"
           "points/units.yaml" (Demo.boot (fun _ => None))).
  reflexivity.
Defined.

(** C10. The writers test truthiness, not absence.  The empty string,
    0 and false are falsy like the sentinel; for every falsy payload
    [single] and [composite] leave the world as it was; and [composite],
    on any payload, writes no file for a format tag whose value is
    falsy. *)
Theorem writers_truthiness_gate `{H : Host} (data : jsval)
        (output_directory rel : string) (w : world) :
  (truthy (VStr "") = false /\ truthy (VNum 0) = false /\
   truthy (VBool false) = false /\ truthy VNaN = false /\
   truthy VUndefined = false /\ truthy VNull = false) /\
  (truthy data = false ->
   single data output_directory rel w = (Ok tt, w) /\
   composite data output_directory rel w = (Ok tt, w)) /\
  (forall tag v,
      In tag format_tags -> get_prop data tag = Ok v -> truthy v = false ->
      forall p d,
        In (p, d) (written (events_since w
                     (snd (composite data output_directory rel w)))) ->
        p <> (path_join output_directory rel ++ "." ++ tag)%string).
Proof.
  split; [repeat split|]. split.
  - intros F. unfold single, composite. rewrite F. simpl. split; reflexivity.
  - intros tag v Hin Ev Fv p d Hw.
    set (abs := path_join output_directory rel) in *.
    pose (P := fun e : event =>
                 forall d', e <> FsWriteFile (abs ++ "." ++ tag) d').
    assert (HP : emits P (composite data output_directory rel)).
    { apply composite_emits.
      - intros d'. discriminate.
      - fold abs. intros tag' v' d0 Hin' Ev' Tv' d' E.
        injection E as E _.
        apply append_inv_head in E. injection E as ->.
        rewrite Ev in Ev'. injection Ev' as <-. congruence. }
    destruct (HP w) as (r & es & E & F). rewrite E in Hw. simpl in Hw.
    rewrite events_since_emit_all in Hw. apply in_written in Hw.
    rewrite Forall_forall in F. intros ->. exact (F _ Hw d eq_refl).
Qed.

Lemma writers_truthiness_gate_witness :
  truthy (VStr "") = false /\
  single (H := Demo.host) (VStr "") "/out" "source/raw.txt"
         (Demo.boot (fun _ => None))
  = (Ok tt, Demo.boot (fun _ => None)) /\
  ~ In ("/out/outlines/x.svg", VStr "")
       (written (events_since (Demo.boot (fun _ => None))
          (snd (composite (H := Demo.host)
                  (VObj [("svg", VStr ""); ("dxf", VStr "D")])
                  "/out" "outlines/x" (Demo.boot (fun _ => None)))))).
Proof.
  pose proof (writers_truthiness_gate (H := Demo.host) (VStr "")
                "/out" "source/raw.txt" (Demo.boot (fun _ => None)))
    as (_ & G & _).
  pose proof (writers_truthiness_gate (H := Demo.host)
                (VObj [("svg", VStr ""); ("dxf", VStr "D")])
                "/out" "outlines/x" (Demo.boot (fun _ => None)))
    as (_ & _ & T).
  split; [reflexivity|]. split.
  - apply G. reflexivity.
  - intros Hin.
    refine (T "svg" (VStr "") _ eq_refl eq_refl _ _ Hin eq_refl).
    simpl. tauto.
Defined.

(** C6, as the code has it.  When no output operation fails, a payload
    without yaml and jscad whose svg and dxf values are truthy yields
    exactly two files, base.svg and then base.dxf, each holding the
    payload's value unchanged. *)
Theorem composite_svg_dxf `{H : Host} (props : list (string * jsval))
        (output_directory rel : string) (w : world) :
  fault_free H ->
  has_tag "yaml" props = false -> has_tag "jscad" props = false ->
  truthy (assoc "svg" props) = true -> truthy (assoc "dxf" props) = true ->
  let abs := path_join output_directory rel in
  exists w',
    composite (VObj props) output_directory rel w = (Ok tt, w') /\
    written (events_since w w') =
      [((abs ++ ".svg")%string, assoc "svg" props);
       ((abs ++ ".dxf")%string, assoc "dxf" props)].
Proof.
  intros NF Hy Hj Ts Td abs.
  apply has_tag_assoc in Hy. apply has_tag_assoc in Hj.
  exists (emit_all [FsMkdirp (path_dirname abs);
                    FsWriteFile (abs ++ ".svg") (assoc "svg" props);
                    FsMkdirp (path_dirname abs);
                    FsWriteFile (abs ++ ".dxf") (assoc "dxf" props)] w).
  split; [|now rewrite events_since_emit_all].
  unfold composite, composite_format; simpl. fold abs.
  unfold bind, lift, mkdirpSync, writeFileSync, fs_op, ret; simpl.
  rewrite Hy, Hj; simpl. rewrite Ts, Td.
  rewrite !NF. rewrite !emit_is_emit_all, !emit_all_app. reflexivity.
Qed.

Lemma composite_svg_dxf_witness :
  written (events_since (Demo.boot (fun _ => None))
     (snd (composite (H := Demo.host)
             (VObj [("svg", VStr "<svg/>"); ("dxf", VStr "0 SECTION")])
             "/out" "outlines/x" (Demo.boot (fun _ => None)))))
  = [("/out/outlines/x.svg", VStr "<svg/>");
     ("/out/outlines/x.dxf", VStr "0 SECTION")].
Proof.
  destruct (composite_svg_dxf (H := Demo.host)
              [("svg", VStr "<svg/>"); ("dxf", VStr "0 SECTION")]
              "/out" "outlines/x" (Demo.boot (fun _ => None)))
    as (w' & E & W).
  - intros tr e. reflexivity.
  - reflexivity.
  - reflexivity.
  - reflexivity.
  - reflexivity.
  - rewrite E. exact W.
Defined.

(** C6, counterexample.  A payload that has the tags svg and dxf, with
    an empty svg, yields the dxf file only. *)
Lemma composite_subset_counterexample :
  written (events_since (Demo.boot (fun _ => None))
     (snd (composite (H := Demo.host)
             (VObj [("svg", VStr ""); ("dxf", VStr "D")])
             "/out" "outlines/x" (Demo.boot (fun _ => None)))))
  = [("/out/outlines/x.dxf", VStr "D")]
  /\ ~ composite_subset_claim Demo.host.
Proof.
  split; [reflexivity|].
  intros C.
  destruct (C [("svg", VStr ""); ("dxf", VStr "D")] "/out" "outlines/x"
              (Demo.boot (fun _ => None)))
    as (w' & E & W); try reflexivity.
  - intros tr e. reflexivity.
  - vm_compute in E. injection E as <-. vm_compute in W. discriminate.
Qed.
(* ------------------------------------------------------------------ *)
(** ** Strings and paths *)

Lemma string_length_append (s t : string) :
  String.length (s ++ t) = String.length s + String.length t.
Proof. induction s as [|c s IH]; simpl; [reflexivity|now rewrite IH]. Qed.

Lemma substring_skip (p q : string) (m : nat) :
  substring (String.length p) m (p ++ q) = substring 0 m q.
Proof. induction p as [|c p IH]; simpl; [reflexivity|exact IH]. Qed.

Lemma substring_all (q : string) : substring 0 (String.length q) q = q.
Proof. induction q as [|c q IH]; simpl; [reflexivity|now rewrite IH]. Qed.














(* ------------------------------------------------------------------ *)
(** ** Directory trees *)

Section Archiver.

Context {H : Host}.

Lemma list_files_in_dir_nil (dir : string) :
  list_files_in_dir dir (Dir []) = Ok [].
Proof. reflexivity. Qed.

Lemma list_files_in_dir_cons (dir file : string) (child : fsnode) rest :
  list_files_in_dir dir (Dir ((file, child) :: rest))
  = match list_child (path_resolve2 dir file) child,
          list_files_in_dir dir (Dir rest) with
    | Ok a, Ok b => Ok (a ++ b)
    | Throw e, _ => Throw e
    | Ok _, Throw e => Throw e
    end.
Proof. destruct child as [c|l|[] e|e]; reflexivity. Qed.

Lemma listable_cons (file : string) (child : fsnode) rest :
  listable (Dir ((file, child) :: rest))
  = listable child && listable (Dir rest).
Proof. reflexivity. Qed.

Lemma count_files_cons (file : string) (child : fsnode) rest :
  count_files (Dir ((file, child) :: rest))
  = count_files child + count_files (Dir rest).
Proof. reflexivity. Qed.

(** One entry: listed when its subtree is listable, with one path per
    regular file; an error otherwise. *)
Lemma list_child_spec (node : fsnode) :
  forall fullPath,
    (listable node = true ->
     exists files, list_child fullPath node = Ok files /\
                   List.length files = count_files node) /\
    (listable node = false -> exists e, list_child fullPath node = Throw e).
Proof.
  induction node as [content|entries IH|is_dir e|e] using fsnode_tree_ind;
    intros fullPath.
  - split; [|discriminate]. intros _. exists [fullPath]. now split.
  - change (list_child fullPath (Dir entries))
      with (list_files_in_dir fullPath (Dir entries)).
    induction IH as [|[file child] rest Hchild _ IHrest].
    + split; [|discriminate]. intros _. exists []. now split.
    + rewrite list_files_in_dir_cons, listable_cons, count_files_cons.
      simpl snd in Hchild.
      destruct (Hchild (path_resolve2 fullPath file)) as [Cok Cko].
      destruct IHrest as [Rok Rko].
      destruct (listable child).
      * destruct (Cok eq_refl) as (a & -> & La).
        destruct (listable (Dir rest)).
        -- destruct (Rok eq_refl) as (b & -> & Lb).
           split; [|discriminate]. intros _. exists (a ++ b).
           split; [reflexivity|]. rewrite length_app. congruence.
        -- destruct (Rko eq_refl) as (e & ->).
           split; [discriminate|]. intros _. now exists e.
      * destruct (Cko eq_refl) as (e & ->).
        split; [discriminate|]. intros _. now exists e.
  - destruct is_dir; simpl.
    + split; [discriminate|]. intros _. now exists e.
    + split; [|discriminate]. intros _. exists [fullPath]. now split.
  - split; [discriminate|]. intros _. now exists e.
Qed.


Lemma tree_files_cons (folders : list string) (name : string)
      (child : fsnode) rest :
  tree_files folders (Dir ((name, child) :: rest))
  = match child with
    | Dir _ => tree_files (folders ++ [name]) child
    | File _ | Denied false _ => [(folders, name)]
    | Denied true _ | Broken _ => []
    end ++ tree_files folders (Dir rest).
Proof. reflexivity. Qed.

(** The paths of a successful listing: one for every regular file, in
    the order of the listings, built by resolving the names of its
    chain one after the other. *)
Lemma list_files_in_dir_paths (root : string) (node : fsnode) :
  forall folders,
    match node with
    | Dir _ =>
        forall files,
          list_files_in_dir (fold_left path_resolve2 folders root) node
          = Ok files ->
          files = map (resolved_from root) (tree_files folders node)
    | _ => True
    end.
Proof.
  induction node as [content|entries IH|is_dir e|e] using fsnode_tree_ind;
    intros folders; try exact I.
  induction IH as [|[name child] rest Hchild _ IHrest]; intros files E.
  - simpl in E. now injection E as <-.
  - rewrite list_files_in_dir_cons in E.
    rewrite tree_files_cons, map_app.
    destruct (list_child _ child) as [a|] eqn:C; [|discriminate].
    destruct (list_files_in_dir _ (Dir rest)) as [b|] eqn:R; [|discriminate].
    injection E as <-. f_equal; [|now apply IHrest].
    simpl snd in Hchild. specialize (Hchild (folders ++ [name])).
    unfold resolved_from.
    destruct child as [c|sub|[] err|err]; simpl in C;
      try discriminate C.
    + injection C as <-. simpl. now rewrite fold_left_app.
    + rewrite fold_left_app in Hchild. now apply Hchild.
    + injection C as <-. simpl. now rewrite fold_left_app.
Qed.




End Archiver.


(* ------------------------------------------------------------------ *)
(** ** The resolver *)

Section Resolver.

Context {H : Host}.

Lemma emits_readFileSync P (p : string) : emits P (readFileSync p).
Proof.
  apply emits_read. intros w. unfold readFileSync.
  destruct (disk w p) as [[c|l|[] e|e]|]; reflexivity.
Qed.

Lemma emits_statSync P (p : string) : emits P (statSync_isDirectory p).
Proof.
  apply emits_read. intros w. unfold statSync_isDirectory.
  destruct (disk w p) as [[c|l|d e|e]|]; reflexivity.
Qed.

Lemma emits_readdir_tree P (dir : string) : emits P (readdir_tree dir).
Proof.
  apply emits_read. intros w. unfold readdir_tree.
  destruct (disk w dir); reflexivity.
Qed.

Lemma emits_unpack P (z : zip) : emits P (unpack z).
Proof. apply emits_read. reflexivity. Qed.

Hint Resolve emits_readFileSync emits_statSync emits_readdir_tree
  emits_unpack : emits.

Lemma read_bundle_emits (config_file : string) :
  emits is_resolve_event (read_bundle config_file).
Proof.
  unfold read_bundle. destruct (is_bundle_path config_file); emits_seq.
  match goal with b : bool |- _ => destruct b end; emits_seq.
  unfold zip_from_dir. emits_seq.
Qed.

(** The body of the try block of [read_config]. *)
Lemma read_config_body_emits (config_file : string) :
  emits is_resolve_event
    (bundle <- read_bundle config_file ;;
     let '(config_text, injections) := bundle in
     for_of injections (fun '(type, name, value) =>
                          inject type name value) ;;
     ret config_text).
Proof.
  apply emits_bind; [apply read_bundle_emits|intros [text injections]].
  emits_seq. apply emits_for_of. intros [[t n] v] _. auto with emits.
Qed.

(** Resolving only logs and injects: it leaves the disk, the held
    text and the output directory alone and never runs the engine. *)
Lemma read_config_emits (config_file : string) :
  emits is_resolve_event (read_config config_file).
Proof.
  unfold read_config. apply emits_try.
  - apply read_config_body_emits.
  - intros err. emits_seq.
Qed.

Lemma for_of_inject (injections : list injection) (w : world) :
  (forall i reg, In i injections -> ergogen_inject reg i = None) ->
  for_of injections (fun '(type, name, value) => inject type name value) w
  = (Ok tt, emit_all (map inject_event injections) w).
Proof.
  revert w. induction injections as [|[[t n] v] rest IH]; intros w Hok.
  - simpl. unfold ret. now rewrite emit_all_nil.
  - simpl. unfold bind at 1. unfold inject at 1.
    rewrite (Hok (t, n, v)) by now left.
    rewrite IH by (intros i reg Hi; apply Hok; now right).
    rewrite emit_is_emit_all, emit_all_app. reflexivity.
Qed.

(** What [read_bundle] computes for a directory whose path has no
    bundle extension. *)
Lemma read_bundle_directory (config_file : string) entries (w : world) :
  is_bundle_path config_file = false ->
  disk w config_file = Some (Dir entries) ->
  read_bundle config_file w
  = (match list_files_in_dir config_file (Dir entries) with
     | Ok files =>
         io_unpack (disk w)
           (fold_left (zip_add_file (path_resolve config_file)) files
                      jszip_new)
     | Throw e => Throw e
     end,
     emit (ConsoleLog "Analyzing folder...") w).
Proof.
  intros Hext Hdisk. unfold read_bundle. rewrite Hext.
  unfold bind at 1. unfold statSync_isDirectory. rewrite Hdisk.
  unfold bind at 1. unfold console_log at 1.
  unfold zip_from_dir, bind, readdir_tree, unpack, ret. simpl disk.
  rewrite Hdisk.
  destruct (list_files_in_dir config_file (Dir entries)); reflexivity.
Qed.

(** A plain file resolves to its text; the world is left as it was. *)
Lemma read_config_text (config_file text : string) (w : world) :
  is_bundle_path config_file = false ->
  disk w config_file = Some (File text) ->
  read_bundle config_file w = (Ok (text, []), w) /\
  read_config config_file w = (Ok text, w).
Proof.
  intros Hext Hdisk.
  assert (B : read_bundle config_file w = (Ok (text, []), w)).
  { unfold read_bundle. rewrite Hext.
    unfold bind, statSync_isDirectory, readFileSync, ret.
    rewrite Hdisk. cbn. rewrite Hdisk. reflexivity. }
  split; [exact B|].
  unfold read_config, try_catch, bind. rewrite B. reflexivity.
Qed.

(** A directory resolves to the bundle of its archive, once every
    injection is accepted by the engine. *)
Lemma read_config_directory (config_file : string) entries files text
      injections (w : world) :
  is_bundle_path config_file = false ->
  disk w config_file = Some (Dir entries) ->
  list_files_in_dir config_file (Dir entries) = Ok files ->
  io_unpack (disk w)
    (fold_left (zip_add_file (path_resolve config_file)) files jszip_new)
  = Ok (text, injections) ->
  (forall i reg, In i injections -> ergogen_inject reg i = None) ->
  read_config config_file w
  = (Ok text,
     emit_all (ConsoleLog "Analyzing folder..."
                 :: map inject_event injections) w).
Proof.
  intros Hext Hdisk Hfiles Hunpack Hok.
  unfold read_config, try_catch. unfold bind at 1.
  rewrite (read_bundle_directory _ w Hext Hdisk), Hfiles, Hunpack.
  unfold bind. rewrite for_of_inject by exact Hok.
  unfold ret. rewrite emit_is_emit_all, emit_all_app. reflexivity.
Qed.

(** A path that [existsSync] does not see cannot be resolved. *)
Lemma read_config_unreachable (config_file : string) (w : world) :
  path_exists (disk w) config_file = false ->
  exists e w', read_config config_file w = (Throw e, w').
Proof.
  unfold path_exists. intros Hp.
  destruct (disk w config_file) as [[c|l|d e|e]|] eqn:Hdisk;
    try discriminate Hp;
    unfold read_config, try_catch, read_bundle;
    destruct (is_bundle_path config_file);
    unfold bind, console_log, readFileSync, statSync_isDirectory,
      console_error, throw;
    simpl disk; rewrite Hdisk; eexists; eexists; reflexivity.
Qed.

(** Whenever [read_config] throws, the last thing it did was to print
    the path. *)
Lemma read_config_throws (config_file : string) (w w' : world) (e : exn) :
  read_config config_file w = (Throw e, w') ->
  exists es,
    w' = emit_all (es ++ [ConsoleError (could_not_read config_file)]) w
    /\ Forall is_resolve_event es.
Proof.
  unfold read_config, try_catch.
  pose proof (read_config_body_emits config_file) as B.
  destruct (B w) as (r & es & E & F). rewrite E.
  destruct r as [text|e0]; [discriminate|].
  unfold bind, console_error, throw. intros [= _ <-].
  exists es. split; [|exact F].
  now rewrite emit_is_emit_all, emit_all_app.
Qed.

End Resolver.

(** C8. The resolver dispatches on the path in three ways, and it tests
    the extension before it looks at the disk.  A path that ends in .zip
    or .ekb is read and loaded as an archive whatever is at the path: a
    file there is loaded and the archive unpacked; a directory there
    makes the read fail with EISDIR and is never archived.  Any other
    path is stat'ed: a directory is archived by [zip_from_dir] and that
    archive unpacked in the same way; a file is read as text, with no
    injections, so that nothing is registered with the engine. *)
Theorem read_config_dispatch `{H : Host} (config_file : string) (w : world) :
  (is_bundle_path config_file
   = (JsString.endsWith config_file ".zip"
      || JsString.endsWith config_file ".ekb")) /\
  (is_bundle_path config_file = true ->
   read_bundle config_file w
   = (bytes <- readFileSync config_file ;;
      z <- lift (jszip_loadAsync bytes) ;;
      unpack z)
       (emit (ConsoleLog "Analyzing bundle...") w) /\
   (forall bytes,
       disk w config_file = Some (File bytes) ->
       read_bundle config_file w
       = (match jszip_loadAsync bytes with
          | Ok z => io_unpack (disk w) z
          | Throw e => Throw e
          end,
          emit (ConsoleLog "Analyzing bundle...") w)) /\
   (forall entries,
       disk w config_file = Some (Dir entries) ->
       read_bundle config_file w
       = (Throw (SystemError "EISDIR" config_file),
          emit (ConsoleLog "Analyzing bundle...") w))) /\
  (is_bundle_path config_file = false ->
   read_bundle config_file w
   = (is_dir <- statSync_isDirectory config_file ;;
      if (is_dir : bool)
      then console_log "Analyzing folder..." ;;
           z <- zip_from_dir config_file ;;
           unpack z
      else text <- readFileSync config_file ;;
           ret (text, [])) w /\
   (forall entries,
       disk w config_file = Some (Dir entries) ->
       read_bundle config_file w
       = (z <- zip_from_dir config_file ;; unpack z)
           (emit (ConsoleLog "Analyzing folder...") w) /\
       read_bundle config_file w
       = (match list_files_in_dir config_file (Dir entries) with
          | Ok files =>
              io_unpack (disk w)
                (fold_left (zip_add_file (path_resolve config_file)) files
                           jszip_new)
          | Throw e => Throw e
          end,
          emit (ConsoleLog "Analyzing folder...") w)) /\
   (forall text,
       disk w config_file = Some (File text) ->
       read_bundle config_file w = (Ok (text, []), w) /\
       read_config config_file w = (Ok text, w))).
Proof.
  split; [reflexivity|]. split.
  - intros Hext.
    assert (B : read_bundle config_file w
                = (bytes <- readFileSync config_file ;;
                   z <- lift (jszip_loadAsync bytes) ;;
                   unpack z)
                    (emit (ConsoleLog "Analyzing bundle...") w)).
    { unfold read_bundle. rewrite Hext. reflexivity. }
    split; [exact B|]. split.
    + intros bytes Hdisk. rewrite B.
      unfold bind, readFileSync, lift, unpack. simpl disk. rewrite Hdisk.
      destruct (jszip_loadAsync bytes); reflexivity.
    + intros entries Hdisk. rewrite B.
      unfold bind, readFileSync. simpl disk. rewrite Hdisk. reflexivity.
  - intros Hext. split; [|split].
    + unfold read_bundle. rewrite Hext. reflexivity.
    + intros entries Hdisk. split.
      * unfold read_bundle. rewrite Hext.
        unfold bind at 1. unfold statSync_isDirectory. rewrite Hdisk.
        reflexivity.
      * now apply read_bundle_directory.
    + intros text. now apply read_config_text.
Qed.

Lemma read_config_dispatch_witness :
  (read_bundle (H := Demo.host) "/kb.ekb"
     (Demo.boot (fun _ => Some (File "PKpoints: {}")))
   = (Ok ("points: {}", []),
      emit (ConsoleLog "Analyzing bundle...")
           (Demo.boot (fun _ => Some (File "PKpoints: {}"))))) /\
  (read_bundle (H := Demo.host) "/kb.zip"
     (Demo.boot (Demo.disk_of "/kb.zip"))
   = (Throw (SystemError "EISDIR" "/kb.zip"),
      emit (ConsoleLog "Analyzing bundle...")
           (Demo.boot (Demo.disk_of "/kb.zip")))) /\
  (fst (read_bundle (H := Demo.host) "/kb" (Demo.boot (Demo.disk_of "/kb")))
   = Ok ("points: {}",
         [("footprint", "custom", VStr "module.exports = {}")])) /\
  (read_config (H := Demo.host) "/kb/config.yaml"
     (Demo.boot (Demo.disk_of "/kb"))
   = (Ok "points: {}", Demo.boot (Demo.disk_of "/kb"))).
Proof.
  split; [|split; [|split]].
  - pose proof (read_config_dispatch (H := Demo.host) "/kb.ekb"
                  (Demo.boot (fun _ => Some (File "PKpoints: {}"))))
      as (_ & A & _).
    destruct (A eq_refl) as (_ & F & _).
    rewrite (F "PKpoints: {}" eq_refl). reflexivity.
  - pose proof (read_config_dispatch (H := Demo.host) "/kb.zip"
                  (Demo.boot (Demo.disk_of "/kb.zip")))
      as (_ & A & _).
    destruct (A eq_refl) as (_ & _ & D).
    apply (D _ eq_refl).
  - pose proof (read_config_dispatch (H := Demo.host) "/kb"
                  (Demo.boot (Demo.disk_of "/kb")))
      as (_ & _ & N).
    destruct (N eq_refl) as (_ & D & _).
    destruct (D _ eq_refl) as (_ & E).
    rewrite E. reflexivity.
  - pose proof (read_config_dispatch (H := Demo.host) "/kb/config.yaml"
                  (Demo.boot (Demo.disk_of "/kb")))
      as (_ & _ & N).
    destruct (N eq_refl) as (_ & _ & T).
    apply (T "points: {}" eq_refl).
Defined.




(* ------------------------------------------------------------------ *)
(** ** Generation *)

Lemma events_since_app (w w' : world) (es : list event) :
  trace w' = trace w ++ es -> events_since w w' = es.
Proof.
  intros E. unfold events_since. rewrite E.
  rewrite skipn_app, skipn_all, Nat.sub_diag. reflexivity.
Qed.

Lemma registry_app (es1 es2 : list event) :
  registry (es1 ++ es2) = registry es1 ++ registry es2.
Proof.
  induction es1 as [|e es1 IH]; simpl; [reflexivity|].
  destruct e; simpl; now rewrite ?IH.
Qed.

Lemma registry_generation (es : list event) :
  Forall is_generation_event es -> registry es = [].
Proof.
  induction 1 as [|e es He _ IH]; simpl; [reflexivity|].
  destruct e; simpl in He; try contradiction; exact IH.
Qed.

Section Generation.

Context {H : Host}.

Lemma emits_single (data : jsval) (output_directory rel : string) :
  emits is_generation_event (single data output_directory rel).
Proof. apply single_emits; intros; exact I. Qed.

Lemma emits_composite (data : jsval) (output_directory rel : string) :
  emits is_generation_event (composite data output_directory rel).
Proof. apply composite_emits; intros; exact I. Qed.

Lemma emits_write_key f (results : jsval) (key output_directory rel : string) :
  (forall d o r, emits is_generation_event (f d o r)) ->
  emits is_generation_event (write_key f results key output_directory rel).
Proof. intros Hf. unfold write_key. emits_seq. Qed.

Lemma emits_for_entries (results : jsval) (key : string) body :
  (forall name v, emits is_generation_event (body name v)) ->
  emits is_generation_event (for_entries results key body).
Proof.
  intros Hb. unfold for_entries. emits_seq.
  apply emits_for_of. intros [name v] _. apply Hb.
Qed.

Hint Resolve emits_single emits_composite emits_write_key
  emits_for_entries : emits.

(** Writing the results only logs and operates on the output
    directory. *)
Lemma generate_output_emits (results : jsval) (output_directory : string)
      (clean : bool) :
  emits is_generation_event
    (generate_output results output_directory clean).
Proof.
  unfold generate_output. emits_seq. destruct clean; emits_seq.
Qed.

(** The try block starts by running the engine and can only append
    to the trace. *)
Lemma generate_body_shape (config_text output_directory : string)
      (clean debug : bool) (w : world) :
  exists r es,
    generate_body config_text output_directory clean debug w
    = (r, emit_all (EngineProcess config_text debug :: es) w)
    /\ Forall is_generation_event es.
Proof.
  unfold generate_body, process_context, process.
  unfold bind at 1. unfold bind at 1.
  destruct (ergogen_process (registry (trace w)) config_text debug)
    as [lines [results|e]].
  - unfold ret at 1.
    destruct (generate_output_emits results output_directory clean
                (emit_all (EngineProcess config_text debug
                             :: map ConsoleLog lines) w))
      as (r & es & E & F).
    rewrite E, emit_all_app. simpl. exists r, (map ConsoleLog lines ++ es).
    split; [reflexivity|]. apply Forall_app. split; [|exact F].
    apply Forall_forall. intros e He. apply in_map_iff in He.
    destruct He as (l & <- & _). exact I.
  - exists (Throw e), (map ConsoleLog lines). split; [reflexivity|].
    apply Forall_forall. intros e' He. apply in_map_iff in He.
    destruct He as (l & <- & _). exact I.
Qed.

(** [generate] returns normally from every world. *)
Lemma generate_shape (config_text output_directory : string)
      (clean debug : bool) (w : world) :
  exists es,
    generate config_text output_directory clean debug w
    = (Ok tt,
       emit_all (EngineProcess config_text debug
                   :: es ++ [ConsoleLog "Done."; ConsoleLog ""]) w)
    /\ (forall e w1,
           generate_body config_text output_directory clean debug w
           = (Throw e, w1) ->
           In (ConsoleErrorExn e) es)
    /\ Forall is_generation_event es.
Proof.
  destruct (generate_body_shape config_text output_directory clean debug w)
    as (r & es & E & F).
  unfold generate. fold (generate_body config_text output_directory
                           clean debug).
  unfold bind at 1. unfold try_catch. rewrite E.
  destruct r as [[]|e].
  - exists es. split; [|split].
    + unfold bind, console_log.
      rewrite !emit_is_emit_all, !emit_all_app. simpl.
      repeat rewrite <- app_assoc. reflexivity.
    + intros e w1 [=].
    + exact F.
  - exists (es ++ [ConsoleErrorExn e]). split; [|split].
    + unfold bind, console_log, console_error_exn.
      rewrite !emit_is_emit_all, !emit_all_app. simpl.
      repeat rewrite <- app_assoc. reflexivity.
    + intros e' w1 [= <- _]. apply in_or_app. right. now left.
    + apply Forall_app. split; [exact F|]. now repeat constructor.
Qed.

(** The single-shot path of the top-level function, once the path is
    known to exist. *)
Lemma main_single_shot (a : args) (config_file : string) (w : world) :
  arg_config a = Some config_file -> config_file <> "" ->
  arg_watch a = false ->
  path_exists (disk w) config_file = true ->
  main a w
  = (config_text <- read_config config_file ;;
     set_config_text config_text ;;
     config_text <- read_config config_file ;;
     generate config_text (arg_output a) (arg_clean a) (arg_debug a) ;;
     ret Finished)
      (emit_all [ConsoleLog (banner a); ConsoleLog ""] w).
Proof.
  intros Hcfg Hne Hw Hex. unfold main. rewrite Hcfg, Hw.
  destruct config_file as [|c s]; [contradiction|].
  unfold bind at 1. unfold console_log at 1.
  unfold bind at 1. unfold console_log at 1.
  unfold bind at 1. unfold existsSync at 1.
  change (disk (emit (ConsoleLog "") (emit (ConsoleLog (banner a)) w)))
    with (disk w).
  rewrite Hex. change (negb true) with false. cbv iota.
  rewrite !emit_is_emit_all, emit_all_app. reflexivity.
Qed.

End Generation.

(** C2. [generate] returns normally from every world, whatever the
    engine and the output disk do: an error thrown by the engine or by a
    write is printed, and the run ends with the line Done. and an empty
    line.  In single-shot mode, once the config path resolves, the
    process exits with code 0 after printing them. *)
Theorem generate_isolates_failures `{H : Host}
        (config_text output_directory : string) (clean debug : bool)
        (w : world) :
  (exists es,
      generate config_text output_directory clean debug w
      = (Ok tt, emit_all (es ++ [ConsoleLog "Done."; ConsoleLog ""]) w) /\
      (forall e w1,
          generate_body config_text output_directory clean debug w
          = (Throw e, w1) ->
          In (ConsoleErrorExn e) es)) /\
  (forall a config_file,
      arg_config a = Some config_file -> config_file <> "" ->
      arg_watch a = false ->
      resolves config_file (disk w) ->
      fst (run_main a w) = Exited 0 /\
      exists es,
        events_since w (snd (run_main a w))
        = es ++ [ConsoleLog "Done."; ConsoleLog ""]).
Proof.
  split.
  - destruct (generate_shape config_text output_directory clean debug w)
      as (es & G & L & _).
    exists (EngineProcess config_text debug :: es). split; [exact G|].
    intros e w1 E. right. now apply (L e w1).
  - intros a cf Hcfg Hne Hw Hres.
    assert (Hex : path_exists (disk w) cf = true).
    { destruct (path_exists (disk w) cf) eqn:Hp; [reflexivity|].
      destruct (Hres w eq_refl) as (t & w' & E).
      destruct (read_config_unreachable cf w Hp) as (e & w'' & E').
      rewrite E in E'. discriminate. }
    set (w0 := emit_all [ConsoleLog (banner a); ConsoleLog ""] w).
    destruct (Hres w0 eq_refl) as (t1 & w1 & E1).
    destruct (read_config_emits cf w0) as (r1 & es1 & E1' & _).
    rewrite E1 in E1'. injection E1' as _ ->.
    destruct (Hres (set_var t1 (emit_all es1 w0)) eq_refl) as (t2 & w2 & E2).
    destruct (read_config_emits cf (set_var t1 (emit_all es1 w0)))
      as (r2 & es2 & E2' & _).
    rewrite E2 in E2'. injection E2' as _ ->.
    destruct (generate_shape t2 (arg_output a) (arg_clean a) (arg_debug a)
                (emit_all es2 (set_var t1 (emit_all es1 w0))))
      as (es & G & _).
    assert (R : main a w
                = (Ok Finished,
                   emit_all (EngineProcess t2 (arg_debug a)
                               :: es ++ [ConsoleLog "Done."; ConsoleLog ""])
                     (emit_all es2 (set_var t1 (emit_all es1 w0))))).
    { rewrite (main_single_shot a w Hcfg Hne Hw Hex). fold w0.
      unfold bind at 1. rewrite E1.
      unfold bind at 1. unfold set_config_text at 1.
      unfold bind at 1. rewrite E2.
      unfold bind at 1. rewrite G. reflexivity. }
    unfold run_main. rewrite R. simpl fst. simpl snd.
    split; [reflexivity|].
    exists ([ConsoleLog (banner a); ConsoleLog ""] ++ es1 ++ es2
              ++ EngineProcess t2 (arg_debug a) :: es).
    apply events_since_app. unfold w0. simpl.
    repeat rewrite <- app_assoc. reflexivity.
Qed.

Lemma generate_isolates_failures_witness :
  fst (run_main (H := Demo.host) (Demo.cli "/empty.yaml" false)
         (Demo.boot (fun _ => Some (File ""))))
  = Exited 0 /\
  In (ConsoleErrorExn (LibError "Input does not contain a points clause!"))
     (trace (snd (run_main (H := Demo.host) (Demo.cli "/empty.yaml" false)
                    (Demo.boot (fun _ => Some (File "")))))).
Proof.
  pose proof (generate_isolates_failures (H := Demo.host) "" "/out"
                false false (Demo.boot (fun _ => Some (File ""))))
    as (_ & S).
  split.
  - apply (S (Demo.cli "/empty.yaml" false) "/empty.yaml");
      [reflexivity|discriminate|reflexivity|].
    intros w Hd. exists "", w.
    apply read_config_text; [reflexivity|now rewrite Hd].
  - vm_compute. tauto.
Defined.

(** C1, what the code does.  In single-shot mode the top-level function
    resolves the config path twice, once before the test of the watch
    flag and once more in the branch without it.  For a directory with
    a main config and one injection that the engine accepts, the run
    therefore calls [inject] twice with that injection, both times
    before the engine is run on the config text, and never again. *)
Theorem single_shot_injects_twice `{H : Host} (a : args)
        (config_file : string) (entries : list (string * fsnode))
        (files : list string) (text type name : string) (value : jsval)
        (w : world) :
  arg_config a = Some config_file -> config_file <> "" ->
  arg_watch a = false ->
  is_bundle_path config_file = false ->
  disk w config_file = Some (Dir entries) ->
  list_files_in_dir config_file (Dir entries) = Ok files ->
  io_unpack (disk w)
    (fold_left (zip_add_file (path_resolve config_file)) files jszip_new)
  = Ok (text, [(type, name, value)]) ->
  (forall reg, ergogen_inject reg (type, name, value) = None) ->
  (exists rest,
      events_since w (snd (run_main a w))
      = [ConsoleLog (banner a); ConsoleLog "";
         ConsoleLog "Analyzing folder..."; EngineInject type name value;
         ConsoleLog "Analyzing folder..."; EngineInject type name value;
         EngineProcess text (arg_debug a)] ++ rest) /\
  registry (events_since w (snd (run_main a w)))
  = [(type, name, value); (type, name, value)].
Proof.
  intros Hcfg Hne Hw Hext Hdisk Hfiles Hunpack Hok.
  assert (Hex : path_exists (disk w) config_file = true)
    by (unfold path_exists; now rewrite Hdisk).
  assert (Hall : forall i reg,
             In i [(type, name, value)] -> ergogen_inject reg i = None).
  { intros i reg [<-|[]]. apply Hok. }
  set (resolved := ConsoleLog "Analyzing folder..."
                     :: map inject_event [(type, name, value)]).
  set (w0 := emit_all [ConsoleLog (banner a); ConsoleLog ""] w).
  set (w1 := set_var text (emit_all resolved w0)).
  destruct (generate_shape text (arg_output a) (arg_clean a) (arg_debug a)
              (emit_all resolved w1))
    as (es & G & _ & F).
  assert (R : main a w
              = (Ok Finished,
                 emit_all (EngineProcess text (arg_debug a)
                             :: es ++ [ConsoleLog "Done."; ConsoleLog ""])
                   (emit_all resolved w1))).
  { rewrite (main_single_shot a w Hcfg Hne Hw Hex). fold w0.
    unfold bind at 1.
    rewrite (read_config_directory config_file w0 Hext Hdisk Hfiles Hunpack Hall).
    fold resolved.
    unfold bind at 1. unfold set_config_text at 1. fold w1.
    unfold bind at 1.
    rewrite (read_config_directory config_file w1 Hext Hdisk Hfiles Hunpack Hall).
    fold resolved.
    unfold bind at 1. rewrite G. reflexivity. }
  unfold run_main. rewrite R. simpl snd.
  rewrite (@events_since_app w _
             ([ConsoleLog (banner a); ConsoleLog "";
                     ConsoleLog "Analyzing folder...";
                     EngineInject type name value;
                     ConsoleLog "Analyzing folder...";
                     EngineInject type name value;
                     EngineProcess text (arg_debug a)]
                      ++ es ++ [ConsoleLog "Done."; ConsoleLog ""])).
  - split; [eexists; reflexivity|].
    simpl. rewrite registry_app, (registry_generation F). reflexivity.
  - unfold w1, w0, resolved. simpl.
    repeat rewrite <- app_assoc. reflexivity.
Qed.

Lemma single_shot_injects_twice_witness :
  registry (events_since (Demo.boot (Demo.disk_of "/kb"))
              (snd (run_main (H := Demo.host) (Demo.cli "/kb" false)
                      (Demo.boot (Demo.disk_of "/kb")))))
  = [("footprint", "custom", VStr "module.exports = {}");
     ("footprint", "custom", VStr "module.exports = {}")].
Proof.
  apply (single_shot_injects_twice (H := Demo.host) (Demo.cli "/kb" false)
           (config_file := "/kb")
           (entries := [("config.yaml", File "points: {}");
                        ("footprints",
                         Dir [("custom.js", File "module.exports = {}")])])
           (files := ["/kb/config.yaml"; "/kb/footprints/custom.js"])
           (text := "points: {}")
           (Demo.boot (Demo.disk_of "/kb")));
    (reflexivity || discriminate).
Defined.

(** The sibling path: with the watch flag, the same folder is resolved
    once before the first generation. *)
Example watch_mode_injects_once :
  events_since (Demo.boot (Demo.disk_of "/kb"))
    (snd (run_main (H := Demo.host) (Demo.cli "/kb" true)
            (Demo.boot (Demo.disk_of "/kb"))))
  = [ConsoleLog "Ergogen v4.1.0 CLI"; ConsoleLog "";
     ConsoleLog "Analyzing folder...";
     EngineInject "footprint" "custom" (VStr "module.exports = {}");
     ConsoleLog (String.append "Watching "
                   (String.append JsString.dquote
                      (String.append "/kb"
                         (String.append JsString.dquote
                            " for changes... (Ctrl+C to stop)"))));
     EngineProcess "points: {}" false;
     ConsoleLog "Writing output to disk..."; FsMkdirp "/out";
     FsMkdirp "/out/source";
     FsWriteFile "/out/source/raw.txt" (VStr "points: {}");
     ConsoleLog "Done."; ConsoleLog ""; FsWatch "/kb"].
Proof. reflexivity. Qed.

(* ------------------------------------------------------------------ *)
(** ** Watching *)

Section Watching.

Context {H : Host}.

(** What becomes of the process when the listener's promise is
    rejected: where an unhandled rejection throws, the process ends
    with code 1 and the later notifications are never processed;
    where it only warns, the loop goes on. *)
Lemma watch_loop_rejected (a : args) (config_file : string)
      (n : notification) (rest : list notification) (e : exn)
      (w w' : world) :
  on_watch_event a config_file (n_event n) (with_disk (n_disk n) w)
  = (Throw e, w') ->
  watch_loop a config_file (n :: rest) w
  = match unhandled_rejections with
    | RejectionThrows => (Exited 1, w')
    | RejectionWarns => watch_loop a config_file rest w'
    end.
Proof.
  intros E. simpl. rewrite E. unfold unhandled.
  destruct unhandled_rejections; reflexivity.
Qed.

End Watching.

(** C4. The listener ignores every notification whose kind is not
    change: the world is left as it was.  On a change notification whose
    re-resolved text equals the held text it stops after the resolve:
    the held text is kept, the engine is not run and nothing is removed,
    created or written. *)
Theorem watch_change_suppression `{H : Host} (a : args)
        (config_file event : string) (w : world) :
  (event <> "change" ->
   on_watch_event a config_file event w = (Ok tt, w)) /\
  (forall text w1,
      read_config config_file w = (Ok text, w1) ->
      text = config_text_var w ->
      on_watch_event a config_file "change" w = (Ok tt, w1) /\
      config_text_var w1 = config_text_var w /\
      Forall (fun e => ~ is_regeneration_event e) (events_since w w1) /\
      written (events_since w w1) = []).
Proof.
  split.
  - intros Hev. unfold on_watch_event.
    apply String.eqb_neq in Hev. rewrite Hev. reflexivity.
  - intros text w1 Hread Heq.
    destruct (read_config_emits config_file w) as (r & es & E & F).
    rewrite Hread in E. injection E as _ ->.
    assert (N : Forall (fun e => ~ is_regeneration_event e) es).
    { eapply Forall_impl; [|exact F].
      intros e He Hr. destruct e; simpl in *; contradiction. }
    rewrite events_since_emit_all. repeat split.
    + unfold on_watch_event. rewrite String.eqb_refl.
      change (negb true) with false. cbv iota.
      unfold bind at 1. rewrite Hread.
      unfold bind, get_config_text. simpl config_text_var.
      rewrite Heq, String.eqb_refl. reflexivity.
    + exact N.
    + clear - F. induction F as [|e es He _ IH]; [reflexivity|].
      destruct e; simpl in *; try contradiction; exact IH.
Qed.

Lemma watch_change_suppression_witness :
  on_watch_event (H := Demo.host) (Demo.cli "/kb/config.yaml" true)
    "/kb/config.yaml" "rename"
    (set_var "points: {}" (Demo.boot (Demo.disk_of "/kb")))
  = (Ok tt, set_var "points: {}" (Demo.boot (Demo.disk_of "/kb"))) /\
  on_watch_event (H := Demo.host) (Demo.cli "/kb/config.yaml" true)
    "/kb/config.yaml" "change"
    (set_var "points: {}" (Demo.boot (Demo.disk_of "/kb")))
  = (Ok tt, set_var "points: {}" (Demo.boot (Demo.disk_of "/kb"))).
Proof.
  pose proof (watch_change_suppression (H := Demo.host)
                (Demo.cli "/kb/config.yaml" true) "/kb/config.yaml" "rename"
                (set_var "points: {}" (Demo.boot (Demo.disk_of "/kb"))))
    as (I & S).
  split.
  - apply I. discriminate.
  - apply (S "points: {}"); reflexivity.
Defined.

(** C3, what the code does.  When re-resolving fails on a change
    notification, [read_config] prints the offending path and throws
    the error again; the listener has no handler around that call, so
    it stops there, with the held text kept and nothing regenerated,
    and its promise is rejected with the error.  Nothing handles the
    rejection.  Where an unhandled rejection throws, as on Node by
    default, the process ends with exit code 1 and the notifications
    that follow are never processed: the watch loop does not survive.
    Only where the runtime merely warns does the loop go on. *)
Theorem watch_resolution_error_is_unhandled `{H : Host} (a : args)
        (config_file : string) (n : notification)
        (rest : list notification) (e : exn) (w w' : world) :
  n_event n = "change" ->
  read_config config_file (with_disk (n_disk n) w) = (Throw e, w') ->
  (exists es,
      events_since (with_disk (n_disk n) w) w'
      = es ++ [ConsoleError (could_not_read config_file)] /\
      Forall is_resolve_event es) /\
  config_text_var w' = config_text_var w /\
  on_watch_event a config_file "change" (with_disk (n_disk n) w)
  = (Throw e, w') /\
  watch_loop a config_file (n :: rest) w
  = match unhandled_rejections with
    | RejectionThrows => (Exited 1, w')
    | RejectionWarns => watch_loop a config_file rest w'
    end.
Proof.
  intros Hev Hread.
  assert (L : on_watch_event a config_file "change"
                (with_disk (n_disk n) w) = (Throw e, w')).
  { unfold on_watch_event. rewrite String.eqb_refl.
    change (negb true) with false. cbv iota.
    unfold bind at 1. rewrite Hread. reflexivity. }
  destruct (read_config_throws _ _ Hread) as (es & -> & F).
  split; [|split; [reflexivity|split; [exact L|]]].
  - exists es. rewrite events_since_emit_all. now split.
  - apply watch_loop_rejected with (e := e). now rewrite Hev.
Qed.

Lemma watch_resolution_error_is_unhandled_witness :
  watch_loop (H := Demo.host) (Demo.cli "/kb.ekb" true) "/kb.ekb"
    [ {| n_event := "change"; n_disk := fun _ => Some (File "P") |};
      {| n_event := "change";
         n_disk := fun _ => Some (File "PKpoints: {a: 1}") |} ]
    (set_var "points: {}" (Demo.boot (fun _ => Some (File "PKpoints: {}"))))
  = (Exited 1,
     emit_all [ConsoleLog "Analyzing bundle...";
               ConsoleError (could_not_read "/kb.ekb")]
       (with_disk (fun _ => Some (File "P"))
          (set_var "points: {}"
             (Demo.boot (fun _ => Some (File "PKpoints: {}")))))).
Proof.
  pose proof (@watch_resolution_error_is_unhandled Demo.host
                (Demo.cli "/kb.ekb" true) "/kb.ekb"
                {| n_event := "change";
                   n_disk := fun _ => Some (File "P") |}
                [ {| n_event := "change";
                     n_disk := fun _ => Some (File "PKpoints: {a: 1}") |} ]
                (LibError "End of central directory not found")
                (set_var "points: {}"
                   (Demo.boot (fun _ => Some (File "PKpoints: {}"))))
                (emit_all [ConsoleLog "Analyzing bundle...";
                           ConsoleError (could_not_read "/kb.ekb")]
                   (with_disk (fun _ => Some (File "P"))
                      (set_var "points: {}"
                         (Demo.boot (fun _ => Some (File "PKpoints: {}"))))))
                eq_refl eq_refl) as (_ & _ & _ & L).
  exact L.
Defined.

(* ------------------------------------------------------------------ *)
(** ** The directory archiver *)


(** X1. Listing a directory succeeds exactly when [stat] succeeds on
    every entry below it and every directory below it can be listed;
    unreadable regular files do not matter.  Otherwise the whole listing
    fails: no partial list is returned. *)
Theorem list_files_in_dir_succeeds_iff `{H : Host} (dir : string)
        (entries : list (string * fsnode)) :
  (exists files, list_files_in_dir dir (Dir entries) = Ok files)
  <-> listable (Dir entries) = true.
Proof.
  destruct (list_child_spec (Dir entries) dir) as [Hok Hko].
  change (list_child dir (Dir entries))
    with (list_files_in_dir dir (Dir entries)) in *.
  split.
  - intros (files & E). destruct (listable (Dir entries)); [reflexivity|].
    destruct (Hko eq_refl) as (e & E'). congruence.
  - intros L. destruct (Hok L) as (files & E & _). now exists files.
Qed.

(** X2. A successful listing is exactly the regular files of the tree,
    at any depth, in the order of the listings, depth first: the path
    of each is its chain of folder names and its own name resolved one
    after the other from the directory listed.  Directories give no
    path of their own, so folders without files leave no trace. *)
Theorem list_files_in_dir_lists_regular_files `{H : Host} (dir : string)
        (entries : list (string * fsnode)) (files : list string) :
  list_files_in_dir dir (Dir entries) = Ok files ->
  files = map (resolved_from dir) (tree_files [] (Dir entries)) /\
  List.length files = count_files (Dir entries).
Proof.
  intros E. split.
  - exact (list_files_in_dir_paths dir (Dir entries) [] files E).
  - destruct (list_child_spec (Dir entries) dir) as [Hok Hko].
    change (list_child dir (Dir entries))
      with (list_files_in_dir dir (Dir entries)) in *.
    destruct (listable (Dir entries)).
    + destruct (Hok eq_refl) as (files' & E' & L). congruence.
    + destruct (Hko eq_refl) as (e & E'). congruence.
Qed.

Lemma list_files_in_dir_lists_regular_files_witness :
  tree_files [] (Dir [("a", Dir [("b", Dir []); ("x", File "1")]);
                      ("y", Denied false (SystemError "EACCES" "/r/y"));
                      ("c", Dir [])])
  = [(["a"], "x"); ([], "y")]
  /\ ["/r/a/x"; "/r/y"]
     = map (resolved_from (H := Demo.host) "/r")
           (tree_files [] (Dir [("a", Dir [("b", Dir []); ("x", File "1")]);
                                ("y", Denied false
                                        (SystemError "EACCES" "/r/y"));
                                ("c", Dir [])]))
  /\ List.length ["/r/a/x"; "/r/y"]
     = count_files (Dir [("a", Dir [("b", Dir []); ("x", File "1")]);
                         ("y", Denied false (SystemError "EACCES" "/r/y"));
                         ("c", Dir [])]).
Proof.
  split; [reflexivity|].
  apply (@list_files_in_dir_lists_regular_files Demo.host "/r"
           [("a", Dir [("b", Dir []); ("x", File "1")]);
            ("y", Denied false (SystemError "EACCES" "/r/y"));
            ("c", Dir [])]).
  reflexivity.
Defined.

(** X3. A directory tree that holds no regular file, however many
    nested folders it has, is archived as the empty archive
    [new jszip()]: no folder entry is created for it, and the world is
    left as it was. *)
Theorem zip_from_dir_without_files `{H : Host} (dir : string)
        (entries : list (string * fsnode)) (w : world) :
  disk w dir = Some (Dir entries) ->
  listable (Dir entries) = true ->
  count_files (Dir entries) = 0 ->
  zip_from_dir dir w = (Ok jszip_new, w).
Proof.
  intros Hdisk L C.
  destruct (list_child_spec (Dir entries) dir) as [Hok _].
  destruct (Hok L) as (files & E & Len).
  change (list_child dir (Dir entries))
    with (list_files_in_dir dir (Dir entries)) in E.
  rewrite C in Len. destruct files; [|discriminate].
  unfold zip_from_dir, bind, readdir_tree, ret. rewrite Hdisk, E.
  reflexivity.
Qed.

Lemma zip_from_dir_without_files_witness :
  zip_from_dir (H := Demo.host) "/empty"
    (Demo.boot (fun _ => Some (Dir [("a", Dir [("b", Dir [])]);
                                    ("c", Dir [])])))
  = (Ok [],
     Demo.boot (fun _ => Some (Dir [("a", Dir [("b", Dir [])]);
                                    ("c", Dir [])]))).
Proof.
  apply (@zip_from_dir_without_files Demo.host "/empty"
           [("a", Dir [("b", Dir [])]); ("c", Dir [])]);
    reflexivity.
Defined.

(** X4. Archiving fails, and returns no archive, as soon as one entry
    below the directory cannot be stat'ed or one directory below it
    cannot be listed; a path that is missing fails with ENOENT.  The
    world is left as it was in every case. *)
Theorem zip_from_dir_all_or_nothing `{H : Host} (dir : string) (w : world) :
  snd (zip_from_dir dir w) = w /\
  (disk w dir = None ->
   fst (zip_from_dir dir w) = Throw (SystemError "ENOENT" dir)) /\
  (forall entries,
      disk w dir = Some (Dir entries) ->
      listable (Dir entries) = false ->
      exists e, fst (zip_from_dir dir w) = Throw e).
Proof.
  unfold zip_from_dir, bind, readdir_tree, ret.
  split; [|split].
  - destruct (disk w dir) as [node|]; [|reflexivity].
    destruct (list_files_in_dir dir node); reflexivity.
  - intros ->. reflexivity.
  - intros entries -> L.
    destruct (list_child_spec (Dir entries) dir) as [_ Hko].
    destruct (Hko L) as (e & E).
    change (list_child dir (Dir entries))
      with (list_files_in_dir dir (Dir entries)) in E.
    rewrite E. now exists e.
Qed.

Lemma zip_from_dir_all_or_nothing_witness :
  fst (zip_from_dir (H := Demo.host) "/kb"
         (Demo.boot (fun _ =>
            Some (Dir [("config.yaml", File "points: {}");
                       ("link", Broken (SystemError "ENOENT" "/kb/link"))]))))
  = Throw (SystemError "ENOENT" "/kb/link").
Proof.
  destruct (zip_from_dir_all_or_nothing (H := Demo.host) "/kb"
              (Demo.boot (fun _ =>
                 Some (Dir [("config.yaml", File "points: {}");
                            ("link",
                             Broken (SystemError "ENOENT" "/kb/link"))]))))
    as (_ & _ & F).
  destruct (F _ eq_refl eq_refl) as (e & E).
  rewrite E. vm_compute in E. symmetry. exact E.
Defined.

(* ------------------------------------------------------------------ *)
(** ** Bundle paths *)

Lemma substring_split (s : string) :
  forall n, n <= String.length s ->
            s = (substring 0 n s ++ substring n (String.length s - n) s)%string.
Proof.
  induction s as [|c s IH]; intros n Hn.
  - destruct n; reflexivity.
  - destruct n as [|n]; simpl.
    + now rewrite substring_all.
    + simpl in Hn. rewrite <- IH by lia. reflexivity.
Qed.

Lemma endsWith_append (stem suffix : string) :
  JsString.endsWith (stem ++ suffix) suffix = true.
Proof.
  unfold JsString.endsWith. rewrite string_length_append.
  replace (String.length stem + String.length suffix - String.length suffix)
    with (String.length stem) by lia.
  rewrite substring_skip, substring_all, String.eqb_refl.
  rewrite andb_true_r. apply Nat.leb_le. lia.
Qed.

Lemma endsWith_inv (s suffix : string) :
  JsString.endsWith s suffix = true -> exists stem, s = (stem ++ suffix)%string.
Proof.
  unfold JsString.endsWith. intros E.
  apply andb_true_iff in E. destruct E as [L E].
  apply Nat.leb_le in L. apply String.eqb_eq in E.
  exists (substring 0 (String.length s - String.length suffix) s).
  rewrite <- E at 2.
  rewrite (substring_split s (n := String.length s - String.length suffix))
    at 1 by lia.
  do 2 f_equal. lia.
Qed.

(** X5. A config path is taken for a bundle exactly when it is some
    stem followed by [.zip] or by [.ekb], in these very letters: the
    test is on the end of the path and on nothing else. *)
Theorem is_bundle_path_iff (config_file : string) :
  is_bundle_path config_file = true
  <-> exists stem,
      config_file = (stem ++ ".zip")%string \/
      config_file = (stem ++ ".ekb")%string.
Proof.
  unfold is_bundle_path. rewrite orb_true_iff. split.
  - intros [E|E]; apply endsWith_inv in E; destruct E as (stem & ->);
      exists stem; tauto.
  - intros (stem & [-> | ->]); [left|right]; apply endsWith_append.
Qed.

(* ------------------------------------------------------------------ *)
(** ** More on the writers *)

Lemma events_since_emit (e : event) (w : world) :
  events_since w (emit e w) = [e].
Proof. rewrite emit_is_emit_all. apply events_since_emit_all. Qed.

Lemma events_since_emit2 (e1 e2 : event) (w : world) :
  events_since w (emit e2 (emit e1 w)) = [e1; e2].
Proof.
  rewrite !emit_is_emit_all, emit_all_app. apply events_since_emit_all.
Qed.

(** X6. Whatever the payload, the host and the faults of the output
    disk, [single] creates no directory but the parent of its target
    and writes at most one file, its target: the payload itself, or,
    for a target that ends in [.yaml], the text [yaml.dump] made of
    it. *)
Theorem single_writes_its_target `{H : Host} (data : jsval)
        (output_directory rel : string) (w : world) :
  let abs := path_join output_directory rel in
  let es := events_since w (snd (single data output_directory rel w)) in
  (created es = [] \/ created es = [path_dirname abs]) /\
  (written es = [] \/
   exists d,
     written es = [(abs, d)] /\
     (JsString.endsWith abs ".yaml" = false -> d = data) /\
     (JsString.endsWith abs ".yaml" = true ->
      exists text,
        yaml_dump data {| indent := 4; noRefs := true |} = Ok text /\
        d = VStr text)).
Proof.
  intros abs es. subst es.
  assert (S : exists r evs,
             single data output_directory rel w = (r, emit_all evs w) /\
             (evs = [] \/ evs = [FsMkdirp (path_dirname abs)] \/
              exists d,
                evs = [FsMkdirp (path_dirname abs); FsWriteFile abs d] /\
                (JsString.endsWith abs ".yaml" = false -> d = data) /\
                (JsString.endsWith abs ".yaml" = true ->
                 exists text,
                   yaml_dump data {| indent := 4; noRefs := true |}
                   = Ok text /\ d = VStr text))).
  { unfold single. fold abs.
    destruct (truthy data);
      [change (negb true) with false|change (negb false) with true];
      cbv iota.
    2:{ exists (Ok tt), []. rewrite emit_all_nil. split; [reflexivity|tauto]. }
    unfold bind at 1. unfold mkdirpSync, fs_op.
    destruct (fs_fault (trace w) (FsMkdirp (path_dirname abs))) as [err|].
    { exists (Throw err), []. rewrite emit_all_nil.
      split; [reflexivity|tauto]. }
    rewrite emit_is_emit_all.
    destruct (JsString.endsWith abs ".yaml") eqn:Y.
    - unfold bind, yamldump, lift.
      destruct (yaml_dump data {| indent := 4; noRefs := true |})
        as [text|e] eqn:D.
      + unfold writeFileSync, fs_op.
        destruct (fs_fault _ (FsWriteFile abs (VStr text))) as [err|].
        * exists (Throw err), [FsMkdirp (path_dirname abs)].
          split; [reflexivity|tauto].
        * exists (Ok tt),
            [FsMkdirp (path_dirname abs); FsWriteFile abs (VStr text)].
          rewrite emit_is_emit_all, emit_all_app.
          split; [reflexivity|]. right. right. exists (VStr text).
          split; [reflexivity|]. split; [discriminate|].
          intros _. now exists text.
      + exists (Throw e), [FsMkdirp (path_dirname abs)].
        split; [reflexivity|tauto].
    - unfold writeFileSync, fs_op.
      destruct (fs_fault _ (FsWriteFile abs data)) as [err|].
      + exists (Throw err), [FsMkdirp (path_dirname abs)].
        split; [reflexivity|tauto].
      + exists (Ok tt), [FsMkdirp (path_dirname abs); FsWriteFile abs data].
        rewrite emit_is_emit_all, emit_all_app.
        split; [reflexivity|]. right. right. exists data.
        split; [reflexivity|]. split; [reflexivity|discriminate]. }
  destruct S as (r & evs & E & Cases). rewrite E. simpl snd.
  rewrite events_since_emit_all.
  destruct Cases as [-> | [-> | (d & -> & Hd)]].
  - split; left; reflexivity.
  - split; [right|left]; reflexivity.
  - split; [right; reflexivity|]. right. exists d.
    split; [reflexivity|exact Hd].
Qed.

Lemma single_writes_its_target_witness :
  written (events_since (Demo.boot (fun _ => None))
     (snd (single (H := Demo.host) (VStr "(kicad_pcb)") "/out"
             "pcbs/board.kicad_pcb" (Demo.boot (fun _ => None)))))
  = [("/out/pcbs/board.kicad_pcb", VStr "(kicad_pcb)")].
Proof.
  pose proof (single_writes_its_target (H := Demo.host) (VStr "(kicad_pcb)")
                "/out" "pcbs/board.kicad_pcb" (Demo.boot (fun _ => None)))
    as (_ & [E | (d & E & V & _)]).
  - discriminate E.
  - rewrite E, (V eq_refl). reflexivity.
Defined.

(** X7. When [yaml.dump] throws on the payload of a [.yaml] target,
    [single] throws that error after it has created the parent
    directory: the directory is there and the file is not. *)
Theorem single_dump_failure `{H : Host} (data : jsval)
        (output_directory rel : string) (e : exn) (w : world) :
  let abs := path_join output_directory rel in
  truthy data = true ->
  JsString.endsWith abs ".yaml" = true ->
  yaml_dump data {| indent := 4; noRefs := true |} = Throw e ->
  fs_fault (trace w) (FsMkdirp (path_dirname abs)) = None ->
  single data output_directory rel w
  = (Throw e, emit (FsMkdirp (path_dirname abs)) w).
Proof.
  intros abs T Y D NF. unfold single. fold abs. rewrite T, Y.
  change (negb true) with false. cbv iota.
  unfold bind, mkdirpSync, fs_op, yamldump, lift. rewrite NF, D.
  reflexivity.
Qed.

Lemma single_dump_failure_witness :
  single (H := Faulty.host) (VObj [("u", VUndefined)]) "/out"
         "points/units.yaml" (Demo.boot (fun _ => None))
  = (Throw (LibError "unacceptable kind of an object to dump"),
     emit (FsMkdirp "/out/points") (Demo.boot (fun _ => None))).
Proof.
  apply (single_dump_failure (H := Faulty.host)); reflexivity.
Defined.

Lemma written_app (es1 es2 : list event) :
  written (es1 ++ es2) = written es1 ++ written es2.
Proof. apply flat_map_app. Qed.

Lemma created_app (es1 es2 : list event) :
  created (es1 ++ es2) = created es1 ++ created es2.
Proof. apply flat_map_app. Qed.

Ltac run_fs R := repeat (progress (cbv beta iota; rewrite ?R)).

Section CompositeFacts.

Context {H : Host}.

(** One verbatim tag whose value, if truthy, is text, on a disk that
    takes the parent directory and any text. *)
Lemma composite_format_text (props : list (string * jsval))
      (abs tag : string) (w : world) :
  (forall tr, fs_fault tr (FsMkdirp (path_dirname abs)) = None) ->
  (forall tr p s, fs_fault tr (FsWriteFile p (VStr s)) = None) ->
  (truthy (assoc tag props) = true -> exists s, assoc tag props = VStr s) ->
  composite_format (VObj props) abs tag w
  = (Ok tt,
     emit_all (if truthy (assoc tag props)
               then [FsMkdirp (path_dirname abs);
                     FsWriteFile (abs ++ "." ++ tag) (assoc tag props)]
               else []) w).
Proof.
  intros Hmk Hwr Htext. unfold composite_format, bind, lift. simpl get_prop.
  cbv beta iota. destruct (truthy (assoc tag props)).
  - destruct (Htext eq_refl) as (s & ->).
    unfold mkdirpSync, writeFileSync, fs_op. rewrite Hmk.
    cbv beta iota. rewrite Hwr.
    now rewrite !emit_is_emit_all, emit_all_app.
  - unfold ret. now rewrite emit_all_nil.
Qed.

Lemma for_of_keeps_world {A} (xs : list A) (body : A -> M unit) :
  (forall x w, snd (body x w) = w) ->
  forall w, snd (for_of xs body w) = w.
Proof.
  intros Hb. induction xs as [|x xs IH]; intros w; [reflexivity|].
  simpl. unfold bind. specialize (Hb x w).
  destruct (body x w) as [[[]|e] w']; simpl in Hb; subst w'.
  - apply IH.
  - reflexivity.
Qed.

Lemma composite_format_mkdir_fails (data : jsval) (abs tag : string)
      (e : exn) :
  (forall tr, fs_fault tr (FsMkdirp (path_dirname abs)) = Some e) ->
  forall w, snd (composite_format data abs tag w) = w.
Proof.
  intros F w. unfold composite_format, bind, lift.
  destruct (get_prop data tag) as [v|err]; [|reflexivity].
  destruct (truthy v); [|reflexivity].
  unfold mkdirpSync, fs_op. now rewrite F.
Qed.

End CompositeFacts.

(** X8. Take a disk on which creating the parent directory and writing
    text succeed, and a mapping whose svg, dxf and jscad values, where
    truthy, are text and whose yaml value, where truthy, [yaml.dump]
    accepts.  Then [composite] returns normally and writes, in this
    order, the dump of the yaml value and the svg, dxf and jscad values
    as they are, each one only if it is truthy, under the base path
    followed by a dot and the tag; and it ensures the parent directory
    once for every file it writes, so not at all when it writes none.
    (A truthy value that is not text, or a dump that fails, is outside
    these hypotheses: the call may then throw.) *)
Theorem composite_writes_truthy_tags `{H : Host}
        (props : list (string * jsval)) (output_directory rel text : string)
        (w : world) :
  let abs := path_join output_directory rel in
  let y := assoc "yaml" props in
  (forall tr, fs_fault tr (FsMkdirp (path_dirname abs)) = None) ->
  (forall tr p s, fs_fault tr (FsWriteFile p (VStr s)) = None) ->
  (forall tag, In tag ["svg"; "dxf"; "jscad"] ->
               truthy (assoc tag props) = true ->
               exists s, assoc tag props = VStr s) ->
  (truthy y = true ->
   yaml_dump y {| indent := 4; noRefs := true |} = Ok text) ->
  exists w',
    composite (VObj props) output_directory rel w = (Ok tt, w') /\
    written (events_since w w')
    = (if truthy y then [((abs ++ ".yaml")%string, VStr text)] else [])
        ++ verbatim_file props abs "svg"
        ++ verbatim_file props abs "dxf"
        ++ verbatim_file props abs "jscad" /\
    created (events_since w w')
    = map (fun _ => path_dirname abs) (written (events_since w w')).
Proof.
  intros abs y Hmk Hwr Htext D.
  set (ypart := if truthy y
                then [FsMkdirp (path_dirname abs);
                      FsWriteFile (abs ++ ".yaml") (VStr text)]
                else []).
  set (part := fun tag =>
                 if truthy (assoc tag props)
                 then [FsMkdirp (path_dirname abs);
                       FsWriteFile (abs ++ "." ++ tag) (assoc tag props)]
                 else []).
  exists (emit_all (ypart ++ part "svg" ++ part "dxf" ++ part "jscad") w).
  split; [|rewrite events_since_emit_all; split].
  - unfold composite. change (negb (truthy (VObj props))) with false.
    cbv iota. fold abs. unfold bind at 1. unfold lift at 1.
    simpl get_prop. fold y. unfold bind at 1.
    assert (Y : (if truthy y
                 then mkdirpSync (path_dirname abs) ;;
                      text0 <- yamldump y ;;
                      writeFileSync (abs ++ ".yaml") (VStr text0)
                 else ret tt) w = (Ok tt, emit_all ypart w)).
    { unfold ypart. destruct (truthy y).
      - unfold bind, mkdirpSync, writeFileSync, fs_op, yamldump, lift.
        rewrite (D eq_refl), Hmk. cbv beta iota. rewrite Hwr.
        now rewrite !emit_is_emit_all, emit_all_app.
      - unfold ret. now rewrite emit_all_nil. }
    rewrite Y. simpl for_of. unfold bind.
    rewrite !composite_format_text
      by (try assumption; apply Htext; simpl; tauto).
    unfold ret. fold (part "svg") (part "dxf") (part "jscad").
    rewrite !emit_all_app. repeat rewrite <- app_assoc.
    rewrite ?app_nil_r. reflexivity.
  - rewrite !written_app. unfold ypart, part, verbatim_file.
    destruct (truthy y), (truthy (assoc "svg" props)),
      (truthy (assoc "dxf" props)), (truthy (assoc "jscad" props));
      reflexivity.
  - rewrite !written_app, !created_app. unfold ypart, part.
    destruct (truthy y), (truthy (assoc "svg" props)),
      (truthy (assoc "dxf" props)), (truthy (assoc "jscad" props));
      reflexivity.
Qed.

Lemma composite_writes_truthy_tags_witness :
  written (events_since (Demo.boot (fun _ => None))
     (snd (composite (H := Demo.host)
             (VObj [("jscad", VStr "cube()"); ("yaml", VStr "a: 1");
                    ("dxf", VStr "")])
             "/out" "cases/c" (Demo.boot (fun _ => None)))))
  = [("/out/cases/c.yaml", VStr "a: 1"); ("/out/cases/c.jscad", VStr "cube()")].
Proof.
  destruct (@composite_writes_truthy_tags Demo.host
              [("jscad", VStr "cube()"); ("yaml", VStr "a: 1");
               ("dxf", VStr "")]
              "/out" "cases/c" "a: 1" (Demo.boot (fun _ => None)))
    as (w' & E & W & _).
  - intros tr. reflexivity.
  - intros tr p s. reflexivity.
  - intros tag [<-|[<-|[<-|[]]]]; simpl; intros T;
      try discriminate T. now exists "cube()".
  - reflexivity.
  - rewrite E. exact W.
Defined.

(** X9. A truthy payload that is not a mapping (a bare string, a
    number, [true]) has none of the four tags: [composite] returns
    normally and leaves the world as it was, on every host. *)
Theorem composite_ignores_primitives `{H : Host} (data : jsval)
        (output_directory rel : string) (w : world) :
  truthy data = true ->
  (forall props, data <> VObj props) ->
  composite data output_directory rel w = (Ok tt, w).
Proof.
  intros T N. unfold composite. rewrite T.
  change (negb true) with false. cbv iota.
  destruct data; try discriminate T; try reflexivity.
  exfalso. now apply (N props).
Qed.

Lemma composite_ignores_primitives_witness :
  composite (H := Demo.host) (VStr "<svg/>") "/out" "outlines/x"
            (Demo.boot (fun _ => None))
  = (Ok tt, Demo.boot (fun _ => None)).
Proof.
  apply (composite_ignores_primitives (H := Demo.host));
    [reflexivity|discriminate].
Defined.

(** X10. Where the parent directory of the target cannot be created,
    neither writer changes anything, whatever the payload: the
    directory is ensured before the payload is serialized or written,
    and [single] on a truthy payload throws the error of that failure. *)
Theorem writers_need_the_parent_directory `{H : Host} (data : jsval)
        (output_directory rel : string) (e : exn) (w : world) :
  let abs := path_join output_directory rel in
  (forall tr, fs_fault tr (FsMkdirp (path_dirname abs)) = Some e) ->
  snd (single data output_directory rel w) = w /\
  snd (composite data output_directory rel w) = w /\
  (truthy data = true ->
   fst (single data output_directory rel w) = Throw e).
Proof.
  intros abs F. split; [|split].
  - unfold single. fold abs. destruct (truthy data); [|reflexivity].
    change (negb true) with false. cbv iota.
    unfold bind, mkdirpSync, fs_op. now rewrite F.
  - unfold composite. fold abs. destruct (truthy data); [|reflexivity].
    change (negb true) with false. cbv iota.
    unfold bind at 1. unfold lift at 1.
    destruct (get_prop data "yaml") as [y|err]; [|reflexivity].
    unfold bind at 1.
    assert (Y : (if truthy y
                 then mkdirpSync (path_dirname abs) ;;
                      text <- yamldump y ;;
                      writeFileSync (abs ++ ".yaml") (VStr text)
                 else ret tt) w
                = (if truthy y then Throw e else Ok tt, w)).
    { destruct (truthy y); [|reflexivity].
      unfold bind, mkdirpSync, fs_op. now rewrite F. }
    rewrite Y. destruct (truthy y); [reflexivity|].
    apply for_of_keeps_world. intros tag w0.
    now apply composite_format_mkdir_fails with (e := e).
  - intros T. unfold single. fold abs. rewrite T.
    change (negb true) with false. cbv iota.
    unfold bind, mkdirpSync, fs_op. now rewrite F.
Qed.

Lemma writers_need_the_parent_directory_witness :
  single (H := Faulty.host) (VStr "raw") "/ro" "source/raw.txt"
         (Demo.boot (fun _ => None))
  = (Throw (SystemError "EROFS" "/ro/source"), Demo.boot (fun _ => None))
  /\ snd (composite (H := Faulty.host) (VObj [("svg", VStr "<svg/>")])
            "/ro" "outlines/x" (Demo.boot (fun _ => None)))
     = Demo.boot (fun _ => None).
Proof.
  pose proof (@writers_need_the_parent_directory Faulty.host
                (VStr "raw") "/ro" "source/raw.txt"
                (SystemError "EROFS" "/ro/source")
                (Demo.boot (fun _ => None)) (fun _ => eq_refl))
    as (S1 & _ & S2).
  pose proof (@writers_need_the_parent_directory Faulty.host
                (VObj [("svg", VStr "<svg/>")]) "/ro" "outlines/x"
                (SystemError "EROFS" "/ro/outlines")
                (Demo.boot (fun _ => None)) (fun _ => eq_refl))
    as (_ & C & _).
  split; [|exact C].
  specialize (S2 eq_refl).
  destruct (single (H := Faulty.host) (VStr "raw") "/ro" "source/raw.txt"
              (Demo.boot (fun _ => None))) as [r w'].
  simpl in S1, S2. now subst.
Defined.

(* ------------------------------------------------------------------ *)
(** ** More on the resolver *)

Lemma registry_logs (es : list event) : Forall is_log es -> registry es = [].
Proof.
  induction 1 as [|e es He _ IH]; simpl; [reflexivity|].
  destruct e; simpl in He; try contradiction; exact IH.
Qed.

Lemma registry_inject_events (injections : list injection) :
  registry (map inject_event injections) = injections.
Proof.
  induction injections as [|[[t n] v] rest IH]; simpl; [reflexivity|].
  now rewrite IH.
Qed.

Section ResolverFacts.

Context {H : Host}.

Hint Extern 1 (is_log _) => exact I : emits.
Hint Resolve emits_readFileSync emits_statSync emits_readdir_tree
  emits_unpack : emits.

(** Until the injections are registered, resolving only prints. *)
Lemma read_bundle_only_logs (config_file : string) :
  emits is_log (read_bundle config_file).
Proof.
  unfold read_bundle. destruct (is_bundle_path config_file); emits_seq.
  match goal with b : bool |- _ => destruct b end; emits_seq.
  unfold zip_from_dir. emits_seq.
Qed.

(** The loop stops at the first injection the engine rejects. *)
Lemma for_of_inject_rejected (pre post : list injection) (i : injection)
      (e : exn) (w : world) :
  (forall j reg, In j pre -> ergogen_inject reg j = None) ->
  (forall reg, ergogen_inject reg i = Some e) ->
  for_of (pre ++ i :: post)
         (fun '(type, name, value) => inject type name value) w
  = (Throw e, emit_all (map inject_event pre ++ [inject_event i]) w).
Proof.
  intros Hpre Hi. revert w.
  induction pre as [|[[t n] v] pre IH]; intros w.
  - destruct i as [[t n] v]. simpl. unfold bind, inject.
    rewrite Hi. reflexivity.
  - simpl. unfold bind at 1. unfold inject at 1.
    rewrite (Hpre (t, n, v)) by now left.
    rewrite IH by (intros j reg Hj; apply Hpre; now right).
    rewrite emit_is_emit_all, emit_all_app. reflexivity.
Qed.

End ResolverFacts.

(** X11. Resolving a config path, whatever the path, the disk and the
    collaborators, and whether it succeeds or throws, leaves the disk
    and the held config text as they were; all it adds to the trace are
    printed lines and injections: it never runs the engine and never
    removes, creates or writes anything. *)
Theorem read_config_only_resolves `{H : Host} (config_file : string)
        (w : world) :
  let w' := snd (read_config config_file w) in
  disk w' = disk w /\
  config_text_var w' = config_text_var w /\
  Forall is_resolve_event (events_since w w') /\
  engine_runs (events_since w w') = [] /\
  written (events_since w w') = [] /\
  created (events_since w w') = [] /\
  removed (events_since w w') = [].
Proof.
  intros w'. subst w'.
  destruct (read_config_emits config_file w) as (r & es & E & F).
  rewrite E. simpl snd. rewrite events_since_emit_all.
  split; [reflexivity|]. split; [reflexivity|]. split; [exact F|].
  repeat split; clear E; induction F as [|e es He _ IH];
    try reflexivity; destruct e; simpl in *; try contradiction; exact IH.
Qed.

(** X12. When the bundle is obtained and the engine accepts each of
    its injections, [read_config] returns the config text after it has
    handed the injections to the engine one by one, in the order of the
    bundle, and nothing else. *)
Theorem read_config_registers_in_order `{H : Host} (config_file : string)
        (text : string) (injections : list injection) (w w1 : world) :
  read_bundle config_file w = (Ok (text, injections), w1) ->
  (forall i reg, In i injections -> ergogen_inject reg i = None) ->
  read_config config_file w
  = (Ok text, emit_all (map inject_event injections) w1) /\
  registry (events_since w (snd (read_config config_file w))) = injections.
Proof.
  intros B Hok.
  assert (E : read_config config_file w
              = (Ok text, emit_all (map inject_event injections) w1)).
  { unfold read_config, try_catch. unfold bind at 1. rewrite B.
    unfold bind. rewrite for_of_inject by exact Hok. reflexivity. }
  split; [exact E|]. rewrite E. simpl snd.
  destruct (read_bundle_only_logs config_file w) as (r & es & E' & F).
  rewrite B in E'. injection E' as _ ->.
  rewrite emit_all_app, events_since_emit_all, registry_app.
  now rewrite (registry_logs F), registry_inject_events.
Qed.

Lemma read_config_registers_in_order_witness :
  registry (events_since (Demo.boot (Demo.disk_of "/kb"))
              (snd (read_config (H := Demo.host) "/kb"
                      (Demo.boot (Demo.disk_of "/kb")))))
  = [("footprint", "custom", VStr "module.exports = {}")].
Proof.
  apply (@read_config_registers_in_order Demo.host "/kb" "points: {}"
           [("footprint", "custom", VStr "module.exports = {}")]
           (Demo.boot (Demo.disk_of "/kb"))
           (emit (ConsoleLog "Analyzing folder...")
                 (Demo.boot (Demo.disk_of "/kb"))));
    reflexivity.
Defined.

(** X13. When the engine rejects an injection of the bundle,
    [read_config] stops there: the injections before it have been
    handed over and stay registered, the ones after it are never handed
    over, the path is printed as unreadable, the engine's error is
    thrown and no config text is returned. *)
Theorem read_config_rejected_injection `{H : Host} (config_file : string)
        (text : string) (pre post : list injection) (i : injection)
        (e : exn) (w w1 : world) :
  read_bundle config_file w = (Ok (text, pre ++ i :: post), w1) ->
  (forall j reg, In j pre -> ergogen_inject reg j = None) ->
  (forall reg, ergogen_inject reg i = Some e) ->
  read_config config_file w
  = (Throw e,
     emit_all (map inject_event pre
                 ++ [inject_event i;
                     ConsoleError (could_not_read config_file)]) w1).
Proof.
  intros B Hpre Hi.
  unfold read_config, try_catch. unfold bind at 1. rewrite B.
  unfold bind at 1.
  rewrite (for_of_inject_rejected pre post i (e := e)) by assumption.
  unfold bind, console_error, throw.
  rewrite emit_is_emit_all, emit_all_app, <- app_assoc. reflexivity.
Qed.

Lemma read_config_rejected_injection_witness :
  read_config (H := Faulty.host) "/kb" (Demo.boot Faulty.disk)
  = (Throw (LibError "Unknown injection type"),
     emit_all [ConsoleLog "Analyzing folder...";
               EngineInject "footprint" "a" (VStr "text");
               EngineInject "footprint" "bad" (VStr "text");
               ConsoleError (could_not_read "/kb")]
       (Demo.boot Faulty.disk)).
Proof.
  rewrite (@read_config_rejected_injection Faulty.host "/kb" "text"
             [("footprint", "a", VStr "text")]
             [("footprint", "c", VStr "text")]
             ("footprint", "bad", VStr "text")
             (LibError "Unknown injection type")
             (Demo.boot Faulty.disk)
             (emit (ConsoleLog "Analyzing folder...")
                   (Demo.boot Faulty.disk))).
  - reflexivity.
  - reflexivity.
  - intros j reg [<-|[]]. reflexivity.
  - intros reg. reflexivity.
Defined.

(** X14. A bundle path whose file cannot be loaded as an archive, or
    whose archive cannot be unpacked: [read_config] prints that it
    analyzes the bundle, prints the path as unreadable and throws the
    error of the load or of the unpack; nothing is registered with the
    engine. *)
Theorem read_config_bad_bundle `{H : Host} (config_file bytes : string)
        (e : exn) (w : world) :
  is_bundle_path config_file = true ->
  disk w config_file = Some (File bytes) ->
  (jszip_loadAsync bytes = Throw e \/
   exists z, jszip_loadAsync bytes = Ok z /\ io_unpack (disk w) z = Throw e) ->
  read_config config_file w
  = (Throw e,
     emit_all [ConsoleLog "Analyzing bundle...";
               ConsoleError (could_not_read config_file)] w).
Proof.
  intros Hext Hdisk Hbad.
  unfold read_config, try_catch, read_bundle. rewrite Hext.
  unfold bind at 1. unfold bind at 1. unfold console_log at 1.
  unfold bind at 1. unfold readFileSync at 1.
  change (disk (emit (ConsoleLog "Analyzing bundle...") w) config_file)
    with (disk w config_file).
  rewrite Hdisk. unfold bind at 1. unfold lift at 1.
  destruct Hbad as [L | (z & L & U)]; rewrite L.
  - unfold bind, console_error, throw.
    now rewrite !emit_is_emit_all, emit_all_app.
  - unfold unpack at 1.
    change (disk (emit (ConsoleLog "Analyzing bundle...") w))
      with (disk w).
    rewrite U. unfold bind, console_error, throw.
    now rewrite !emit_is_emit_all, emit_all_app.
Qed.

Lemma read_config_bad_bundle_witness :
  read_config (H := Demo.host) "/kb.zip"
    (Demo.boot (fun _ => Some (File "not an archive")))
  = (Throw (LibError "End of central directory not found"),
     emit_all [ConsoleLog "Analyzing bundle...";
               ConsoleError (could_not_read "/kb.zip")]
       (Demo.boot (fun _ => Some (File "not an archive")))).
Proof.
  apply (@read_config_bad_bundle Demo.host "/kb.zip" "not an archive");
    [reflexivity|reflexivity|left; reflexivity].
Defined.

(* ------------------------------------------------------------------ *)
(** ** More on generation *)

Lemma generation_steps (output_directory : string) (clean : bool)
      (es : list event) :
  Forall (is_generation_step output_directory clean) es ->
  engine_runs es = [] /\ registry es = [] /\
  forall q, In q (removed es) -> clean = true /\ q = output_directory.
Proof.
  induction 1 as [|e es He _ (IH1 & IH2 & IH3)].
  - split; [reflexivity|]. split; [reflexivity|]. intros q [].
  - destruct He as [He|(err & ->)].
    + destruct e; simpl in He; try contradiction; simpl;
        (split; [exact IH1|split; [exact IH2|]]); try exact IH3.
      intros q [<-|Hq]; [exact He|now apply IH3].
    + simpl. split; [exact IH1|split; [exact IH2|exact IH3]].
Qed.

Lemma materialization_is_output (output_directory : string) (clean : bool)
      (es : list event) :
  Forall (is_materialization_event output_directory clean) es ->
  Forall is_output_event es /\
  Forall (is_generation_step output_directory clean) es.
Proof.
  induction 1 as [|e es He _ (IH1 & IH2)]; [now split|].
  split; constructor; auto; [|now left].
  destruct e; simpl in *; try contradiction; exact I.
Qed.

Section GenerationFacts.

Context {H : Host}.

Lemma always_throws_bind_l {A B} (m : M A) (k : A -> M B) :
  always_throws m -> always_throws (bind m k).
Proof.
  intros Hm w. destruct (Hm w) as (e & E). exists e. unfold bind.
  destruct (m w) as [[a|e'] w']; simpl in *; [discriminate|].
  now injection E as ->.
Qed.

Lemma always_throws_bind_r {A B} (m : M A) (k : A -> M B) :
  (forall a, always_throws (k a)) -> always_throws (bind m k).
Proof.
  intros Hk w. unfold bind. destruct (m w) as [[a|e] w'].
  - apply Hk.
  - now exists e.
Qed.

Lemma for_entries_absent (results : jsval) (key : string) (table : jsval)
      body :
  get_prop results key = Ok table -> absent table = true ->
  always_throws (for_entries results key body).
Proof.
  intros G A w. unfold for_entries, bind, lift. rewrite G.
  destruct table; try discriminate A; eexists; reflexivity.
Qed.

(** [generate_output] adds only log lines and output operations, and
    removes only the root, only when cleaning. *)
Lemma generate_output_materializes (results : jsval)
      (output_directory : string) (clean : bool) :
  emits (is_materialization_event output_directory clean)
        (generate_output results output_directory clean).
Proof.
  set (P := is_materialization_event output_directory clean).
  assert (S : forall d o r, emits P (single d o r))
    by (intros; apply single_emits; intros; exact I).
  assert (C : forall d o r, emits P (composite d o r))
    by (intros; apply composite_emits; intros; exact I).
  assert (K : forall f key rel,
             (forall d o r, emits P (f d o r)) ->
             emits P (write_key f results key output_directory rel)).
  { intros f key rel Hf. unfold write_key.
    apply emits_bind; [apply emits_lift|intros v; apply Hf]. }
  assert (E : forall key body,
             (forall n v, emits P (body n v)) ->
             emits P (for_entries results key body)).
  { intros key body Hb. unfold for_entries.
    apply emits_bind; [apply emits_lift|intros table].
    apply emits_bind; [apply emits_lift|intros entries].
    apply emits_for_of. intros [n v] _. apply Hb. }
  unfold generate_output.
  repeat lazymatch goal with
         | |- emits _ (bind _ _) => apply emits_bind; [|intros ?]
         end;
    try (apply K; assumption); try (apply E; intros; auto).
  - destruct clean; [|apply emits_ret].
    apply emits_bind; [apply emits_console_log; exact I|intros _].
    apply emits_fs_op. now split.
  - apply emits_console_log. exact I.
  - apply emits_fs_op. exact I.
Qed.

(** The shape of a generation: the engine first, then log lines and
    materialization, then the report of a caught error if any. *)
Lemma generate_materializes (config_text output_directory : string)
      (clean debug : bool) (w : world) :
  exists es,
    generate config_text output_directory clean debug w
    = (Ok tt, emit_all (EngineProcess config_text debug :: es) w) /\
    Forall (is_generation_step output_directory clean) es.
Proof.
  assert (L : forall lines,
             Forall (is_generation_step output_directory clean)
                    (map ConsoleLog lines)).
  { intros lines. apply Forall_forall. intros x Hx. apply in_map_iff in Hx.
    destruct Hx as (l & <- & _). now left. }
  assert (T : forall e,
             Forall (is_generation_step output_directory clean)
                    [ConsoleErrorExn e; ConsoleLog "Done."; ConsoleLog ""]).
  { intros e. constructor; [right; now exists e|].
    constructor; [now left|]. constructor; [now left|constructor]. }
  assert (D : Forall (is_generation_step output_directory clean)
                     [ConsoleLog "Done."; ConsoleLog ""]).
  { constructor; [now left|]. constructor; [now left|constructor]. }
  unfold generate. unfold bind at 1. unfold try_catch.
  unfold bind at 1. unfold process_context. unfold bind at 1.
  unfold process.
  destruct (ergogen_process (registry (trace w)) config_text debug)
    as [lines [results|e]].
  - unfold ret at 1.
    destruct (generate_output_materializes results output_directory clean
                (emit_all (EngineProcess config_text debug
                             :: map ConsoleLog lines) w))
      as (r & es & E & F).
    rewrite E. apply materialization_is_output in F. destruct F as [_ F].
    destruct r as [[]|e].
    + exists (map ConsoleLog lines ++ es
                ++ [ConsoleLog "Done."; ConsoleLog ""]).
      split.
      * unfold bind, console_log.
        rewrite !emit_is_emit_all, !emit_all_app. simpl.
        repeat rewrite <- app_assoc. reflexivity.
      * repeat (apply Forall_app; split); auto.
    + exists (map ConsoleLog lines ++ es
                ++ [ConsoleErrorExn e; ConsoleLog "Done."; ConsoleLog ""]).
      split.
      * unfold bind, console_log, console_error_exn.
        rewrite !emit_is_emit_all, !emit_all_app. simpl.
        repeat rewrite <- app_assoc. reflexivity.
      * repeat (apply Forall_app; split); auto.
  - exists (map ConsoleLog lines
              ++ [ConsoleErrorExn e; ConsoleLog "Done."; ConsoleLog ""]).
    split.
    + unfold bind, console_log, console_error_exn.
      rewrite !emit_is_emit_all, !emit_all_app. simpl.
      repeat rewrite <- app_assoc. reflexivity.
    + apply Forall_app. split; auto.
Qed.

Lemma for_entries_operations P (results : jsval) (key : string) body :
  (forall name v, In name (table_names results key) ->
                  emits P (body name v)) ->
  emits P (for_entries results key body).
Proof.
  intros Hb. unfold for_entries.
  apply emits_bind_lift. intros table Et.
  apply emits_bind_lift. intros entries Ee.
  apply emits_for_of. intros [n v] Hin. apply Hb.
  unfold table_names. rewrite Et, Ee.
  apply in_map_iff. exists (n, v). now split.
Qed.

(** [generate_output] with the paths: it logs its two lines, removes
    the root when cleaning, creates the root and the parents of the
    joined targets, and writes to the joined targets. *)
Lemma generate_output_operations (results : jsval)
      (output_directory : string) (clean : bool) :
  emits (is_output_operation results output_directory clean)
        (generate_output results output_directory clean).
Proof.
  set (P := is_output_operation results output_directory clean).
  assert (S : forall d rel, In rel (targets results) ->
                            emits P (single d output_directory rel)).
  { intros d rel I. apply single_emits.
    - right. now exists rel.
    - intros d'. exists rel. split; [exact I|now left]. }
  assert (C : forall d rel, In rel (targets results) ->
                            emits P (composite d output_directory rel)).
  { intros d rel I. apply composite_emits.
    - right. now exists rel.
    - intros tag v d' It _ _. exists rel. split; [exact I|].
      right. now exists tag. }
  assert (K : forall f key rel,
             (forall d, emits P (f d output_directory rel)) ->
             emits P (write_key f results key output_directory rel)).
  { intros f key rel Hf. unfold write_key.
    apply emits_bind; [apply emits_lift|intros v; apply Hf]. }
  assert (F : forall rel,
             In rel ["source/raw.txt"; "source/canonical.yaml";
                     "points/units.yaml"; "points/points.yaml";
                     "points/demo"] ->
             In rel (targets results)).
  { intros rel I. unfold targets. apply in_or_app. now left. }
  unfold generate_output.
  apply emits_bind; [|intros _].
  { destruct clean; [|apply emits_ret].
    apply emits_bind; [apply emits_console_log; left; now split|intros _].
    apply emits_fs_op. now split. }
  apply emits_bind; [apply emits_console_log; now right|intros _].
  apply emits_bind; [apply emits_fs_op; now left|intros _].
  apply emits_bind;
    [apply K; intros d; apply S, F; simpl; tauto|intros _].
  apply emits_bind;
    [apply K; intros d; apply S, F; simpl; tauto|intros _].
  apply emits_bind;
    [apply K; intros d; apply S, F; simpl; tauto|intros _].
  apply emits_bind;
    [apply K; intros d; apply S, F; simpl; tauto|intros _].
  apply emits_bind;
    [apply K; intros d; apply C, F; simpl; tauto|intros _].
  apply emits_bind; [|intros _; apply emits_bind; [|intros _]];
    apply for_entries_operations; intros name v I.
  - apply C. unfold targets. apply in_or_app. right.
    apply in_or_app. left.
    apply (in_map (fun n => ("outlines/" ++ n)%string)), I.
  - apply C. unfold targets. apply in_or_app. right.
    apply in_or_app. right. apply in_or_app. left.
    apply (in_map (fun n => ("cases/" ++ n)%string)), I.
  - apply S. unfold targets. apply in_or_app. right.
    apply in_or_app. right. apply in_or_app. right.
    apply (in_map (fun n => ("pcbs/" ++ n ++ ".kicad_pcb")%string)), I.
Qed.

Lemma output_operations_removed (results : jsval)
      (output_directory : string) (clean : bool) (es : list event) :
  Forall (is_output_operation results output_directory clean) es ->
  forall p, In p (removed es) -> clean = true /\ p = output_directory.
Proof.
  induction 1 as [|e es He _ IH]; intros p; [intros []|].
  destruct e; simpl in *; try exact (IH p).
  intros [<-|I]; [exact He|now apply IH].
Qed.

End GenerationFacts.

(** X15. Writing the results, whatever they are and whatever fails,
    does nothing but this: it prints its two log lines; it removes the
    output root, and nothing else, and only when asked to clean; it
    creates the output root and the parent directories of the joined
    targets; it writes to a joined target or to a joined target
    followed by a dot and one of the four format tags.  A joined target
    is [path.join] of the output directory and one of the five fixed
    relative names or of outlines/, cases/ or pcbs/ followed by a name
    of the table, as the engine gave it (with .kicad_pcb for a pcb).
    The names are joined as they are, so the bound is on the joined
    names, not on their place relative to the output directory. *)
Theorem generate_output_touches_only_targets `{H : Host} (results : jsval)
        (output_directory : string) (clean : bool) (w : world) :
  let es := events_since w
              (snd (generate_output results output_directory clean w)) in
  Forall (is_output_operation results output_directory clean) es /\
  forall p, In p (removed es) -> clean = true /\ p = output_directory.
Proof.
  intros es. subst es.
  destruct (generate_output_operations results output_directory clean w)
    as (r & es & E & F).
  rewrite E. simpl snd. rewrite events_since_emit_all.
  split; [exact F|]. exact (output_operations_removed F).
Qed.

(** Names are joined as they are: a pcb named with [..] is written
    outside the pcbs folder. *)
Example generate_output_joins_names_unchecked :
  written (events_since (Demo.boot (fun _ => None))
     (snd (generate_output (H := Demo.host)
             (VObj [("outlines", VObj []); ("cases", VObj []);
                    ("pcbs", VObj [("../../x", VStr "pcb")])])
             "/out" false (Demo.boot (fun _ => None)))))
  = [("/out/pcbs/../../x.kicad_pcb", VStr "pcb")].
Proof. reflexivity. Qed.

Section OutputRoot.

Context {H : Host}.

(** Everything [generate_output] does once the root is there. *)
Lemma write_results_emits P (results : jsval) (output_directory : string) :
  (forall p, P (FsMkdirp p)) -> (forall p d, P (FsWriteFile p d)) ->
  emits P
    (write_key single results "raw" output_directory "source/raw.txt" ;;
     write_key single results "canonical" output_directory
               "source/canonical.yaml" ;;
     write_key single results "units" output_directory "points/units.yaml" ;;
     write_key single results "points" output_directory
               "points/points.yaml" ;;
     write_key composite results "demo" output_directory "points/demo" ;;
     for_entries results "outlines" (fun name outline =>
       composite outline output_directory ("outlines/" ++ name)) ;;
     for_entries results "cases" (fun name _case =>
       composite _case output_directory ("cases/" ++ name)) ;;
     for_entries results "pcbs" (fun name pcb =>
       single pcb output_directory ("pcbs/" ++ name ++ ".kicad_pcb"))).
Proof.
  intros Dm Wr.
  assert (S : forall d o r, emits P (single d o r))
    by (intros; apply single_emits; intros; auto).
  assert (C : forall d o r, emits P (composite d o r))
    by (intros; apply composite_emits; intros; auto).
  assert (K : forall f key rel,
             (forall d o r, emits P (f d o r)) ->
             emits P (write_key f results key output_directory rel)).
  { intros f key rel Hf. unfold write_key.
    apply emits_bind; [apply emits_lift|intros v; apply Hf]. }
  assert (E : forall key body,
             (forall n v, emits P (body n v)) ->
             emits P (for_entries results key body)).
  { intros key body Hb. unfold for_entries.
    apply emits_bind; [apply emits_lift|intros table].
    apply emits_bind; [apply emits_lift|intros entries].
    apply emits_for_of. intros [n v] _. apply Hb. }
  repeat lazymatch goal with
         | |- emits _ (bind _ _) => apply emits_bind; [|intros ?]
         end;
    try (apply K; assumption); apply E; intros; auto.
Qed.

(** The start of [generate_output] on a disk without faults. *)
Lemma generate_output_start (results : jsval) (output_directory : string)
      (clean : bool) (w : world) :
  fault_free H ->
  generate_output results output_directory clean w
  = (write_key single results "raw" output_directory "source/raw.txt" ;;
     write_key single results "canonical" output_directory
               "source/canonical.yaml" ;;
     write_key single results "units" output_directory "points/units.yaml" ;;
     write_key single results "points" output_directory
               "points/points.yaml" ;;
     write_key composite results "demo" output_directory "points/demo" ;;
     for_entries results "outlines" (fun name outline =>
       composite outline output_directory ("outlines/" ++ name)) ;;
     for_entries results "cases" (fun name _case =>
       composite _case output_directory ("cases/" ++ name)) ;;
     for_entries results "pcbs" (fun name pcb =>
       single pcb output_directory ("pcbs/" ++ name ++ ".kicad_pcb")))
      (emit_all (root_prefix output_directory clean) w).
Proof.
  intros NF. unfold generate_output, root_prefix.
  unfold bind at 1.
  assert (C : (if clean
               then console_log "Cleaning output folder..." ;;
                    removeSync output_directory
               else ret tt) w
              = (Ok tt,
                 emit_all (if clean
                           then [ConsoleLog "Cleaning output folder...";
                                 FsRemove output_directory]
                           else []) w)).
  { destruct clean.
    - unfold bind, console_log, removeSync, fs_op. run_fs NF.
      now rewrite !emit_is_emit_all, emit_all_app.
    - unfold ret. now rewrite emit_all_nil. }
  rewrite C. unfold bind at 1. unfold console_log at 1.
  unfold bind at 1. unfold mkdirpSync at 1. unfold fs_op at 1.
  rewrite NF. rewrite !emit_is_emit_all, !emit_all_app.
  reflexivity.
Qed.

Lemma write_key_falsy (f : jsval -> string -> string -> M unit)
      (props : list (string * jsval)) (key output_directory rel : string)
      (w : world) :
  (forall d o r w, truthy d = false -> f d o r w = (Ok tt, w)) ->
  truthy (assoc key props) = false ->
  write_key f (VObj props) key output_directory rel w = (Ok tt, w).
Proof.
  intros Hf T. unfold write_key, bind, lift. simpl get_prop.
  now apply Hf.
Qed.

Lemma single_falsy (d : jsval) (o r : string) (w : world) :
  truthy d = false -> single d o r w = (Ok tt, w).
Proof. intros T. unfold single. now rewrite T. Qed.

Lemma composite_falsy (d : jsval) (o r : string) (w : world) :
  truthy d = false -> composite d o r w = (Ok tt, w).
Proof. intros T. unfold composite. now rewrite T. Qed.

(** A table of the result tree: empty, it is skipped; missing or null,
    [Object.entries] throws. *)
Lemma for_entries_table (props : list (string * jsval)) (key : string)
      body (w : world) :
  assoc key props = VObj [] \/ absent (assoc key props) = true ->
  for_entries (VObj props) key body w
  = (if absent (assoc key props)
     then Throw (TypeError "Cannot convert undefined or null to object")
     else Ok tt, w).
Proof.
  unfold for_entries, bind, lift. simpl get_prop.
  intros [->|A]; [reflexivity|].
  destruct (assoc key props); try discriminate A; reflexivity.
Qed.

End OutputRoot.

(** X16. On an output disk without faults, [generate_output] first
    removes the output root if asked to clean, then creates the root,
    and only then looks at the results: this happens for every result
    tree, also one that yields no file or makes a later step throw. *)
Theorem generate_output_creates_root_first `{H : Host} (results : jsval)
        (output_directory : string) (clean : bool) (w : world) :
  fault_free H ->
  exists r es,
    generate_output results output_directory clean w
    = (r, emit_all (root_prefix output_directory clean ++ es) w) /\
    Forall (fun e => exists p, e = FsMkdirp p \/ exists d, e = FsWriteFile p d)
           es.
Proof.
  intros NF. rewrite generate_output_start by exact NF.
  destruct (write_results_emits
              (fun e => exists p, e = FsMkdirp p \/ exists d, e = FsWriteFile p d)
              results output_directory
              (fun p => ex_intro _ p (or_introl eq_refl))
              (fun p d => ex_intro _ p (or_intror (ex_intro _ d eq_refl)))
              (emit_all (root_prefix output_directory clean) w))
    as (r & es & E & F).
  exists r, es. rewrite E, emit_all_app. now split.
Qed.

Lemma generate_output_creates_root_first_witness :
  events_since (Demo.boot (fun _ => None))
    (snd (generate_output (H := Demo.host) (VObj []) "/out" true
            (Demo.boot (fun _ => None))))
  = root_prefix "/out" true.
Proof.
  destruct (generate_output_creates_root_first (H := Demo.host) (VObj [])
              "/out" true (Demo.boot (fun _ => None)) (fun _ _ => eq_refl))
    as (r & es & E & _).
  rewrite E. simpl snd. rewrite events_since_emit_all.
  vm_compute in E. injection E as _ E.
  rewrite <- E. reflexivity.
Defined.

(** X17. When the engine hands back no result tree at all ([undefined]
    or [null]), [generate_output] on a disk without faults has already
    cleaned and created the output root when it throws the TypeError of
    reading [results.raw]; it has written nothing. *)
Theorem generate_output_without_results `{H : Host} (results : jsval)
        (output_directory : string) (clean : bool) (w : world) :
  fault_free H ->
  absent results = true ->
  exists msg,
    generate_output results output_directory clean w
    = (Throw (TypeError msg),
       emit_all (root_prefix output_directory clean) w).
Proof.
  intros NF A. rewrite generate_output_start by exact NF.
  destruct results; try discriminate A; eexists; reflexivity.
Qed.

Lemma generate_output_without_results_witness :
  generate_output (H := Demo.host) VUndefined "/out" false
    (Demo.boot (fun _ => None))
  = (Throw (TypeError "Cannot read properties of undefined (reading 'raw')"),
     emit_all [ConsoleLog "Writing output to disk..."; FsMkdirp "/out"]
       (Demo.boot (fun _ => None))).
Proof.
  destruct (generate_output_without_results (H := Demo.host) VUndefined
              "/out" false (Demo.boot (fun _ => None))
              (fun _ _ => eq_refl) eq_refl) as (msg & E).
  rewrite E. vm_compute in E. injection E as ->. reflexivity.
Defined.

(** X18. The tables [outlines], [cases] and [pcbs] are mandatory, the
    five other keys are not.  When one of the tables is missing or null
    in the result tree, [generate_output] throws, on every host and
    from every world.  On an output disk without faults, for a result
    tree whose five other keys are all missing (or falsy) and whose
    tables are each empty, missing or null: with the three tables
    there it returns normally, with one of them missing or null it
    throws the TypeError of [Object.entries]; either way it has
    cleaned and created the output root and written nothing. *)
Theorem generate_output_needs_tables `{H : Host} (results : jsval)
        (output_directory : string) (clean : bool) (w : world) :
  (forall key table,
      In key ["outlines"; "cases"; "pcbs"] ->
      get_prop results key = Ok table ->
      absent table = true ->
      exists e,
        fst (generate_output results output_directory clean w) = Throw e) /\
  (fault_free H ->
   forall props,
     results = VObj props ->
     (forall key, In key ["raw"; "canonical"; "units"; "points"; "demo"] ->
                  truthy (assoc key props) = false) ->
     (forall key, In key ["outlines"; "cases"; "pcbs"] ->
                  assoc key props = VObj [] \/
                  absent (assoc key props) = true) ->
     generate_output results output_directory clean w
     = (if existsb (fun key => absent (assoc key props))
                   ["outlines"; "cases"; "pcbs"]
        then Throw (TypeError "Cannot convert undefined or null to object")
        else Ok tt,
        emit_all (root_prefix output_directory clean) w)).
Proof.
  split.
  - intros key table Hkey G A. revert w.
    change (always_throws (generate_output results output_directory clean)).
    unfold generate_output.
    do 8 (apply always_throws_bind_r; intros _).
    destruct Hkey as [<-|[<-|[<-|[]]]].
    + apply always_throws_bind_l. now apply for_entries_absent with table.
    + apply always_throws_bind_r; intros _.
      apply always_throws_bind_l. now apply for_entries_absent with table.
    + do 2 (apply always_throws_bind_r; intros _).
      now apply for_entries_absent with table.
  - intros NF props -> Hopt Htab.
    rewrite generate_output_start by exact NF.
    generalize (emit_all (root_prefix output_directory clean) w) as w0.
    intros w0.
    do 4 (unfold bind at 1;
          rewrite (write_key_falsy single) by
            (try exact single_falsy; apply Hopt; simpl; tauto)).
    unfold bind at 1.
    rewrite (write_key_falsy composite) by
      (try exact composite_falsy; apply Hopt; simpl; tauto).
    unfold bind.
    rewrite for_entries_table by (apply Htab; simpl; tauto).
    simpl existsb.
    destruct (absent (assoc "outlines" props)); [reflexivity|].
    cbv beta iota.
    rewrite for_entries_table by (apply Htab; simpl; tauto).
    destruct (absent (assoc "cases" props)); [reflexivity|].
    cbv beta iota.
    rewrite for_entries_table by (apply Htab; simpl; tauto).
    destruct (absent (assoc "pcbs" props)); reflexivity.
Qed.

Lemma generate_output_needs_tables_witness :
  generate_output (H := Demo.host)
    (VObj [("outlines", VObj []); ("cases", VObj [])])
    "/out" false (Demo.boot (fun _ => None))
  = (Throw (TypeError "Cannot convert undefined or null to object"),
     emit_all (root_prefix "/out" false) (Demo.boot (fun _ => None)))
  /\ generate_output (H := Demo.host)
       (VObj [("outlines", VObj []); ("cases", VObj []); ("pcbs", VObj [])])
       "/out" false (Demo.boot (fun _ => None))
     = (Ok tt,
        emit_all (root_prefix "/out" false) (Demo.boot (fun _ => None))).
Proof.
  split.
  - destruct (@generate_output_needs_tables Demo.host
                (VObj [("outlines", VObj []); ("cases", VObj [])])
                "/out" false (Demo.boot (fun _ => None))) as [_ B].
    rewrite (B (fun _ _ => eq_refl) _ eq_refl).
    + reflexivity.
    + intros key [<-|[<-|[<-|[<-|[<-|[]]]]]]; reflexivity.
    + intros key [<-|[<-|[<-|[]]]]; simpl; tauto.
  - destruct (@generate_output_needs_tables Demo.host
                (VObj [("outlines", VObj []); ("cases", VObj []);
                       ("pcbs", VObj [])])
                "/out" false (Demo.boot (fun _ => None))) as [_ B].
    rewrite (B (fun _ _ => eq_refl) _ eq_refl).
    + reflexivity.
    + intros key [<-|[<-|[<-|[<-|[<-|[]]]]]]; reflexivity.
    + intros key [<-|[<-|[<-|[]]]]; simpl; tauto.
Defined.

(** X19. When the engine throws, [generate] prints the engine's lines,
    the error, Done. and an empty line, and returns normally; nothing
    else happens: the output directory is not cleaned, created or
    written to. *)
Theorem generate_engine_failure `{H : Host}
        (config_text output_directory : string) (clean debug : bool)
        (lines : list string) (e : exn) (w : world) :
  ergogen_process (registry (trace w)) config_text debug
  = (lines, Throw e) ->
  generate config_text output_directory clean debug w
  = (Ok tt,
     emit_all (EngineProcess config_text debug
                 :: map ConsoleLog lines
                 ++ [ConsoleErrorExn e; ConsoleLog "Done."; ConsoleLog ""])
              w).
Proof.
  intros P. unfold generate. unfold bind at 1. unfold try_catch.
  unfold bind at 1. unfold process_context. unfold bind at 1.
  unfold process. rewrite P.
  unfold bind, console_log, console_error_exn.
  rewrite !emit_is_emit_all, !emit_all_app. simpl.
  repeat rewrite <- app_assoc. reflexivity.
Qed.

Lemma generate_engine_failure_witness :
  generate (H := Demo.host) "" "/out" true false (Demo.boot (fun _ => None))
  = (Ok tt,
     emit_all [EngineProcess "" false;
               ConsoleErrorExn
                 (LibError "Input does not contain a points clause!");
               ConsoleLog "Done."; ConsoleLog ""]
       (Demo.boot (fun _ => None))).
Proof.
  apply (@generate_engine_failure Demo.host "" "/out" true false []).
  reflexivity.
Defined.

(** X20. Every generation runs the engine exactly once, on the text it
    was given, before anything else; it registers no injection; and it
    removes nothing unless asked to clean, and then nothing but the
    output root.  This holds whatever the engine returns and whatever
    fails. *)
Theorem generate_runs_engine_once `{H : Host}
        (config_text output_directory : string) (clean debug : bool)
        (w : world) :
  let es := events_since w
              (snd (generate config_text output_directory clean debug w)) in
  hd_error es = Some (EngineProcess config_text debug) /\
  engine_runs es = [(config_text, debug)] /\
  registry es = [] /\
  forall p, In p (removed es) -> clean = true /\ p = output_directory.
Proof.
  intros es. subst es.
  destruct (generate_materializes config_text output_directory clean debug w)
    as (es & E & F).
  rewrite E. simpl snd. rewrite events_since_emit_all.
  destruct (generation_steps F) as (R & J & D).
  split; [reflexivity|]. split; [simpl; now rewrite R|].
  split; [exact J|exact D].
Qed.

(* ------------------------------------------------------------------ *)
(** ** More on the top-level function and the watcher *)


Section MainFacts.

Context {H : Host}.

(** Once the argument is there and the path exists, the top-level
    function starts by resolving it. *)
Lemma main_resolves_first (a : args) (config_file : string) (w : world) :
  arg_config a = Some config_file -> config_file <> "" ->
  path_exists (disk w) config_file = true ->
  main a w
  = (config_text <- read_config config_file ;;
     set_config_text config_text ;;
     if arg_watch a then
       console_log
         ("Watching " ++ JsString.dquote ++ config_file
            ++ JsString.dquote ++ " for changes... (Ctrl+C to stop)") ;;
       config_text <- get_config_text ;;
       generate config_text (arg_output a) (arg_clean a) (arg_debug a) ;;
       fs_watch config_file ;;
       ret WatcherRegistered
     else
       config_text <- read_config config_file ;;
       generate config_text (arg_output a) (arg_clean a) (arg_debug a) ;;
       ret Finished)
      (emit_all [ConsoleLog (banner a); ConsoleLog ""] w).
Proof.
  intros Hcfg Hne Hex. unfold main. rewrite Hcfg.
  destruct config_file as [|c s]; [contradiction|].
  unfold bind at 1. unfold console_log at 1.
  unfold bind at 1. unfold console_log at 1.
  unfold bind at 1. unfold existsSync at 1.
  change (disk (emit (ConsoleLog "") (emit (ConsoleLog (banner a)) w)))
    with (disk w).
  rewrite Hex. change (negb true) with false. cbv iota.
  rewrite !emit_is_emit_all, emit_all_app. reflexivity.
Qed.

(** The listener on a change notification, once the path is resolved:
    nothing if the text is the held one, a generation on the new text
    otherwise. *)
Lemma on_watch_event_resolved (a : args) (config_file text : string)
      (w w1 : world) :
  read_config config_file w = (Ok text, w1) ->
  on_watch_event a config_file "change" w
  = if String.eqb text (config_text_var w) then (Ok tt, w1)
    else generate text (arg_output a) (arg_clean a) (arg_debug a)
           (emit (ConsoleLog (JsString.dquote ++ config_file
                                ++ JsString.dquote
                                ++ " changed, regenerating..."))
                 (set_var text w1)).
Proof.
  intros R.
  destruct (read_config_emits config_file w) as (r & es & E & _).
  rewrite R in E. injection E as _ ->.
  unfold on_watch_event. rewrite String.eqb_refl.
  change (negb true) with false. cbv iota.
  unfold bind at 1. rewrite R.
  unfold bind at 1. unfold get_config_text at 1.
  change (config_text_var (emit_all es w)) with (config_text_var w).
  destruct (String.eqb text (config_text_var w)); [reflexivity|].
  unfold bind at 1. unfold set_config_text at 1.
  unfold bind at 1. unfold console_log at 1.
  unfold bind at 1. unfold get_config_text at 1.
  reflexivity.
Qed.

End MainFacts.

(** X21. Usage errors.  Without a config argument, or with an empty
    one, the process prints the banner and the usage line and exits
    with code 1; with a path that does not exist it prints the banner
    and the path and exits with code 2.  In both cases nothing is
    resolved, the engine is not run and nothing is written. *)
Theorem main_usage_errors `{H : Host} (a : args) (w : world) :
  (arg_config a = None \/ arg_config a = Some "" ->
   run_main a w
   = (Exited 1,
      emit_all [ConsoleLog (banner a); ConsoleLog "";
                ConsoleError "Usage: ergogen <config_file> [options]"] w)) /\
  (forall config_file,
      arg_config a = Some config_file -> config_file <> "" ->
      disk w config_file = None ->
      run_main a w
      = (Exited 2,
         emit_all [ConsoleLog (banner a); ConsoleLog "";
                   ConsoleError
                     ("Could not read config file " ++ JsString.dquote
                        ++ config_file ++ JsString.dquote
                        ++ ": File does not exist!")] w)).
Proof.
  split.
  - intros [E|E]; unfold run_main, main; rewrite E;
      unfold bind, console_log, console_error, ret;
      now rewrite !emit_is_emit_all, !emit_all_app.
  - intros cf E Hne Hdisk. unfold run_main, main. rewrite E.
    destruct cf as [|c s]; [contradiction|].
    unfold bind at 1. unfold console_log at 1.
    unfold bind at 1. unfold console_log at 1.
    unfold bind at 1. unfold existsSync at 1.
    change (disk (emit (ConsoleLog "") (emit (ConsoleLog (banner a)) w)))
      with (disk w).
    unfold path_exists. rewrite Hdisk.
    change (negb false) with true. cbv iota.
    unfold bind, console_error, ret.
    now rewrite !emit_is_emit_all, !emit_all_app.
Qed.

Lemma main_usage_errors_witness :
  fst (run_main (H := Demo.host)
         {| arg_config := None; arg_output := "/out"; arg_debug := true;
            arg_clean := false; arg_watch := false |}
         (Demo.boot (fun _ => None)))
  = Exited 1
  /\ fst (run_main (H := Demo.host) (Demo.cli "/nowhere.yaml" true)
            (Demo.boot (fun _ => None)))
     = Exited 2.
Proof.
  pose proof (main_usage_errors (H := Demo.host)
                {| arg_config := None; arg_output := "/out";
                   arg_debug := true; arg_clean := false;
                   arg_watch := false |}
                (Demo.boot (fun _ => None))) as (U & _).
  pose proof (main_usage_errors (H := Demo.host)
                (Demo.cli "/nowhere.yaml" true)
                (Demo.boot (fun _ => None))) as (_ & N).
  split.
  - rewrite U; [reflexivity|now left].
  - rewrite (N "/nowhere.yaml"); [reflexivity|reflexivity|discriminate
                                 |reflexivity].
Defined.

(** X22. When the first resolve of a path that [existsSync] sees
    throws, with or without the watch flag, the top-level function
    throws that error and nothing handles it: the engine has not been
    run, nothing has been written and no watcher is registered; the
    process ends, with code 1 where an unhandled rejection throws and
    with code 0 where it only warns. *)
Theorem main_first_resolve_fails `{H : Host} (a : args)
        (config_file : string) (e : exn) (w w1 : world) :
  arg_config a = Some config_file -> config_file <> "" ->
  path_exists (disk w) config_file = true ->
  read_config config_file
    (emit_all [ConsoleLog (banner a); ConsoleLog ""] w) = (Throw e, w1) ->
  main a w = (Throw e, w1) /\
  run_main a w
  = (match unhandled_rejections with
     | RejectionThrows => Exited 1
     | RejectionWarns => Exited 0
     end, w1) /\
  Forall is_resolve_event (events_since w w1).
Proof.
  intros Hcfg Hne Hex R.
  assert (M : main a w = (Throw e, w1)).
  { rewrite (main_resolves_first a w Hcfg Hne Hex).
    unfold bind at 1. rewrite R. reflexivity. }
  split; [exact M|]. split.
  - unfold run_main. rewrite M. unfold unhandled.
    destruct unhandled_rejections; reflexivity.
  - destruct (read_config_emits config_file
                (emit_all [ConsoleLog (banner a); ConsoleLog ""] w))
      as (r & es & E & F).
    rewrite R in E. injection E as _ ->.
    rewrite emit_all_app, events_since_emit_all.
    apply Forall_app. split; [|exact F]. repeat constructor.
Qed.

Lemma main_first_resolve_fails_witness :
  fst (run_main (H := Demo.host) (Demo.cli "/kb.zip" true)
         (Demo.boot (fun _ => Some (File "not an archive"))))
  = Exited 1
  /\ fst (run_main (H := Faulty.host) (Demo.cli "/kb.zip" false)
            (Demo.boot (fun _ => Some (File "not an archive"))))
     = Exited 0.
Proof.
  split.
  - destruct (@main_first_resolve_fails Demo.host (Demo.cli "/kb.zip" true)
                "/kb.zip" (LibError "End of central directory not found")
                (Demo.boot (fun _ => Some (File "not an archive")))
                (emit_all [ConsoleLog "Ergogen v4.1.0 CLI"; ConsoleLog "";
                           ConsoleLog "Analyzing bundle...";
                           ConsoleError (could_not_read "/kb.zip")]
                   (Demo.boot (fun _ => Some (File "not an archive")))))
      as (_ & R & _);
      [reflexivity|discriminate|reflexivity|reflexivity|].
    rewrite R. reflexivity.
  - destruct (@main_first_resolve_fails Faulty.host
                (Demo.cli "/kb.zip" false)
                "/kb.zip" (LibError "End of central directory not found")
                (Demo.boot (fun _ => Some (File "not an archive")))
                (emit_all [ConsoleLog "Ergogen v4.1.0 CLI"; ConsoleLog "";
                           ConsoleLog "Analyzing bundle...";
                           ConsoleError (could_not_read "/kb.zip")]
                   (Demo.boot (fun _ => Some (File "not an archive")))))
      as (_ & R & _);
      [reflexivity|discriminate|reflexivity|reflexivity|].
    rewrite R. reflexivity.
Defined.



(** X24. A real change.  On a change notification whose re-resolved
    text differs from the held text, the listener holds the new text,
    prints that the path changed and runs one generation on the new
    text; it returns normally whatever the engine and the writers
    do. *)
Theorem watch_change_regenerates `{H : Host} (a : args)
        (config_file text : string) (w w1 : world) :
  read_config config_file w = (Ok text, w1) ->
  text <> config_text_var w ->
  exists es w',
    on_watch_event a config_file "change" w = (Ok tt, w') /\
    config_text_var w' = text /\
    events_since w1 w'
    = ConsoleLog (JsString.dquote ++ config_file ++ JsString.dquote
                    ++ " changed, regenerating...")
        :: EngineProcess text (arg_debug a) :: es /\
    Forall (is_generation_step (arg_output a) (arg_clean a)) es.
Proof.
  intros R Hne.
  rewrite (@on_watch_event_resolved _ a config_file text w w1 R).
  apply String.eqb_neq in Hne. rewrite Hne.
  match goal with
  | |- context [generate _ _ _ _ ?w0] =>
      destruct (generate_materializes text (arg_output a) (arg_clean a)
                  (arg_debug a) w0) as (es & G & F)
  end.
  exists es. eexists. rewrite G. split; [reflexivity|].
  split; [reflexivity|]. split; [|exact F].
  apply events_since_app. simpl. rewrite <- !app_assoc. reflexivity.
Qed.

Lemma watch_change_regenerates_witness :
  exists w',
    on_watch_event (H := Demo.host) (Demo.cli "/kb/config.yaml" true)
      "/kb/config.yaml" "change"
      (set_var "points: {a: 1}" (Demo.boot (Demo.disk_of "/kb")))
    = (Ok tt, w') /\ config_text_var w' = "points: {}".
Proof.
  destruct (@watch_change_regenerates Demo.host
              (Demo.cli "/kb/config.yaml" true) "/kb/config.yaml"
              "points: {}"
              (set_var "points: {a: 1}" (Demo.boot (Demo.disk_of "/kb")))
              (set_var "points: {a: 1}" (Demo.boot (Demo.disk_of "/kb"))))
    as (es & w' & R & V & _); [reflexivity|discriminate|].
  exists w'. now split.
Defined.

Section WatchLoopFacts.

Context {H : Host}.



End WatchLoopFacts.


